(** * blendingwaves: the displacement simulation (main.js) and the content
      server (main.go)

    The development has two parts.

    - [GLSL], [Shaders] and [FrameLoop] embed the two fragment shaders of
      [src/main.js] and the [animate] loop that drives them.  GLSL [float]
      is idealised as a real number: every statement about the shaders is a
      statement about the arithmetic the shader text denotes over [R], not
      about a GPU's rounding.
    - [Server] embeds [src/main.go]: [loadItems], [homeHandler] and [main],
      on top of a model of the parts of [net/http] and [html/template] they
      call. *)

From Stdlib Require Import Reals Lra Psatz.
From Stdlib Require Import List String Ascii Bool Arith ZArith Lia.
Import ListNotations.

Set Implicit Arguments.

(* ================================================================== *)
(** ** GLSL built-ins used by the shaders *)
(* ================================================================== *)

Module GLSL.
Open Scope R_scope.

Record vec2 : Type := Vec2 { vx : R; vy : R }.
Record vec4 : Type := Vec4 { cr : R; cg : R; cb : R; ca : R }.

(** [sampler2D] with [texture2D]: a texture is read at a coordinate; the
    wrap mode and the filtering are part of the function. *)
Definition sampler2D : Type := vec2 -> vec4.
Definition texture2D (s : sampler2D) (uv : vec2) : vec4 := s uv.

Definition vadd (a b : vec2) : vec2 := Vec2 (vx a + vx b) (vy a + vy b).
Definition vsub (a b : vec2) : vec2 := Vec2 (vx a - vx b) (vy a - vy b).
Definition vscale (a : vec2) (k : R) : vec2 := Vec2 (vx a * k) (vy a * k).
Definition vscale4 (c : vec4) (k : R) : vec4 :=
  Vec4 (cr c * k) (cg c * k) (cb c * k) (ca c * k).

(** Swizzles [.rg] (read), [.rg +=], [.rgb *=] and [.a =]. *)
Definition rg (c : vec4) : vec2 := Vec2 (cr c) (cg c).
Definition rg_add (c : vec4) (d : vec2) : vec4 :=
  Vec4 (cr c + vx d) (cg c + vy d) (cb c) (ca c).
Definition rgb_mul (c : vec4) (k : R) : vec4 :=
  Vec4 (cr c * k) (cg c * k) (cb c * k) (ca c).
Definition set_a (c : vec4) (a : R) : vec4 := Vec4 (cr c) (cg c) (cb c) a.

Definition length (v : vec2) : R := sqrt (vx v * vx v + vy v * vy v).
Definition distance (p q : vec2) : R := length (vsub p q).

Definition clamp (v lo hi : R) : R := Rmin (Rmax v lo) hi.

(** [smoothstep(edge0, edge1, x)], by the formula of the GLSL reference:
    [t = clamp((x - edge0) / (edge1 - edge0), 0, 1); t * t * (3 - 2 * t)].
    Both shaders call it with [edge0 > edge1 = 0].  The GLSL
    specification leaves that case open; implementations evaluate the
    formula, which turns the ramp around: 1 at [x = 0], 0 from
    [x = edge0] on.  The formula is what is modelled. *)
Definition hermite (t : R) : R := t * t * (3 - 2 * t).
Definition smoothstep (edge0 edge1 v : R) : R :=
  hermite (clamp ((v - edge0) / (edge1 - edge0)) 0 1).

(** [mix(x, y, a) = x * (1 - a) + y * a], componentwise on [vec4]. *)
Definition mix (u v a : R) : R := u * (1 - a) + v * a.
Definition mix4 (p q : vec4) (a : R) : vec4 :=
  Vec4 (mix (cr p) (cr q) a) (mix (cg p) (cg q) a)
       (mix (cb p) (cb q) a) (mix (ca p) (ca q) a).

Definition vzero : vec2 := Vec2 0 0.

End GLSL.

(* ================================================================== *)
(** ** The two fragment shaders *)
(* ================================================================== *)

Module Shaders.
Import GLSL.
Open Scope R_scope.

(** Uniforms of [displacementUpdateMaterial]. *)
Record UpdateUniforms : Type := {
  uLastFrame : sampler2D;
  uMousePos : vec2;
  uMouseVelocity : vec2;
  uResolution : vec2
}.

(** The locals of the update shader's [main], one definition each. *)
Definition damping : R := 0.95.
Definition radius : R := 0.2.
Definition gain : R := 2.5.

Definition aspectRatio (u : UpdateUniforms) : R :=
  vx (uResolution u) / vy (uResolution u).
Definition correctedUv (u : UpdateUniforms) (vUv : vec2) : vec2 :=
  Vec2 (vx vUv * aspectRatio u) (vy vUv).
Definition correctedMouse (u : UpdateUniforms) : vec2 :=
  Vec2 (vx (uMousePos u) * aspectRatio u) (vy (uMousePos u)).
Definition dist (u : UpdateUniforms) (vUv : vec2) : R :=
  distance (correctedUv u vUv) (correctedMouse u).

(** [smoothstep(radius, 0.0, dist)] as a function of the distance. *)
Definition falloff (d : R) : R := smoothstep radius 0 d.
Definition strength (u : UpdateUniforms) (vUv : vec2) : R :=
  falloff (dist u vUv).

(** [uMouseVelocity * strength * 2.5], the right-hand side of
    [lastDisp.rg += ...]. *)
Definition brush (u : UpdateUniforms) (vUv : vec2) : vec2 :=
  vscale (vscale (uMouseVelocity u) (strength u vUv)) gain.

(** [displacementUpdateMaterial.fragmentShader]: the value of
    [gl_FragColor] at [vUv]. *)
Definition displacementUpdate (u : UpdateUniforms) (vUv : vec2) : vec4 :=
  let lastDisp := vscale4 (texture2D (uLastFrame u) vUv) damping in
  let lastDisp := rg_add lastDisp (brush u vUv) in
  lastDisp.

(** The update pass as the spec words it: decay the previous value, then
    add a contribution proportional (factor [k]) to the velocity and
    weighted by the falloff [w].  Compared with [displacementUpdate] in
    the theorems. *)
Definition spec_decay_then_add (prev : vec4) (vel : vec2) (w k : R) : vec4 :=
  Vec4 (damping * cr prev + k * w * vx vel)
       (damping * cg prev + k * w * vy vel)
       (damping * cb prev)
       (damping * ca prev).

(** The other order (add, then decay), to tell the two apart. *)
Definition spec_add_then_decay (prev : vec4) (vel : vec2) (w k : R) : vec4 :=
  Vec4 (damping * (cr prev + k * w * vx vel))
       (damping * (cg prev + k * w * vy vel))
       (damping * cb prev)
       (damping * ca prev).

(** Uniforms of [finalRenderMaterial]. *)
Record RenderUniforms : Type := {
  uDisplacementMap : sampler2D;
  uTopTexture : sampler2D;
  uBottomTexture : sampler2D
}.

Definition topScale : R := 0.1.
Definition bottomScale : R := 0.05.
Definition shade : R := 0.2.
Definition threshold : R := 0.1.

Definition displacement (u : RenderUniforms) (vUv : vec2) : vec2 :=
  rg (texture2D (uDisplacementMap u) vUv).
Definition topUV (u : RenderUniforms) (vUv : vec2) : vec2 :=
  vadd vUv (vscale (displacement u vUv) topScale).
Definition bottomUV (u : RenderUniforms) (vUv : vec2) : vec2 :=
  vadd vUv (vscale (displacement u vUv) bottomScale).
Definition bottomColor (u : RenderUniforms) (vUv : vec2) : vec4 :=
  rgb_mul (texture2D (uBottomTexture u) (bottomUV u vUv)) shade.

(** [smoothstep(0.1, 0.0, displacementAmount)] as a function of the
    displacement magnitude. *)
Definition opacity (m : R) : R := smoothstep threshold 0 m.
Definition displacementAmount (u : RenderUniforms) (vUv : vec2) : R :=
  length (displacement u vUv).
Definition topColor (u : RenderUniforms) (vUv : vec2) : vec4 :=
  set_a (texture2D (uTopTexture u) (topUV u vUv))
        (opacity (displacementAmount u vUv)).

(** [finalRenderMaterial.fragmentShader]: the value of [gl_FragColor]. *)
Definition finalRender (u : RenderUniforms) (vUv : vec2) : vec4 :=
  mix4 (bottomColor u vUv) (topColor u vUv) (ca (topColor u vUv)).

(** A run of update passes: frame [n] reads the field frame [n - 1]
    wrote and has its own pointer uniforms [ps n]. *)
Record PointerUniforms : Type := {
  pMousePos : vec2;
  pMouseVelocity : vec2;
  pResolution : vec2
}.

Definition updatePass (p : PointerUniforms) (field : sampler2D) : sampler2D :=
  displacementUpdate
    {| uLastFrame := field; uMousePos := pMousePos p;
       uMouseVelocity := pMouseVelocity p; uResolution := pResolution p |}.

Fixpoint fieldAt (ps : nat -> PointerUniforms) (field0 : sampler2D)
    (n : nat) : sampler2D :=
  match n with
  | O => field0
  | S n' => updatePass (ps n') (fieldAt ps field0 n')
  end.

(** The magnitude of the displacement a field holds at a point. *)
Definition magnitude (field : sampler2D) (p : vec2) : R :=
  length (rg (field p)).

Definition decayOnly (p : PointerUniforms) : Prop := pMouseVelocity p = vzero.

(** Sample inputs: a field that holds one value everywhere, update
    uniforms with the pointer at the origin of a square viewport, and
    render uniforms over a constant displacement, a red top image and a
    blue bottom image. *)
Definition constField (c : vec4) : sampler2D := fun _ => c.

Definition sampleUpdate (prev : vec4) (vel : vec2) : UpdateUniforms :=
  {| uLastFrame := constField prev; uMousePos := Vec2 0 0;
     uMouseVelocity := vel; uResolution := Vec2 1 1 |}.

Definition sampleRender (d : vec2) : RenderUniforms :=
  {| uDisplacementMap := constField (Vec4 (vx d) (vy d) 0 0);
     uTopTexture := constField (Vec4 1 0 0 1);
     uBottomTexture := constField (Vec4 0 0 1 1) |}.

Definition stillPointer (n : nat) : PointerUniforms :=
  {| pMousePos := Vec2 0 0; pMouseVelocity := vzero;
     pResolution := Vec2 1 1 |}.

End Shaders.

(* ================================================================== *)
(** ** The animation loop and the event handlers of [LIQUID_HERO.init] *)
(* ================================================================== *)

Module FrameLoop.
Import GLSL Shaders.
Open Scope R_scope.

(** The two [THREE.WebGLRenderTarget] objects [init] allocates, in the
    order of the two [new] expressions.  The variables
    [currentRenderTarget] and [previousRenderTarget] and the two texture
    uniforms hold references to them. *)
Inductive RenderTarget : Type := TargetA | TargetB.

Definition target_eqb (a b : RenderTarget) : bool :=
  match a, b with
  | TargetA, TargetA | TargetB, TargetB => true
  | _, _ => false
  end.

Definition other (t : RenderTarget) : RenderTarget :=
  match t with TargetA => TargetB | TargetB => TargetA end.

(** What [fullScreenQuad.material] refers to.  The mesh is built without
    a material, so it starts with three.js's default one. *)
Inductive Material : Type := BasicMaterial | UpdateMaterial | FinalMaterial.

(** [mouse], [lastMouse] and [mouseVelocity].  The uniforms [uMousePos]
    and [uMouseVelocity] hold these very objects, so a shader run reads
    whatever they contain at that moment. *)
Record Pointer : Type := {
  mouse : vec2;
  lastMouse : vec2;
  mouseVelocity : vec2
}.

(** The two [let] variables and the two uniforms that hold the texture
    of a render target. *)
Record Buffers : Type := {
  currentRenderTarget : RenderTarget;
  previousRenderTarget : RenderTarget;
  uLastFrame_value : RenderTarget;
  uDisplacementMap_value : RenderTarget
}.

(** The renderer: the quad's material and the bound target, where
    [None] is [setRenderTarget(null)], the canvas. *)
Record Renderer : Type := {
  material : Material;
  renderTarget : option RenderTarget
}.

(** Pixel contents: one texture per render target, and the canvas. *)
Record Gpu : Type := {
  texture : RenderTarget -> sampler2D;
  canvas : sampler2D
}.

Record State : Type := {
  pointer : Pointer;
  buffers : Buffers;
  resolution : vec2;
  renderer : Renderer;
  gpu : Gpu
}.

(** A ghost trace of what a handler did, to state the order of the steps
    and which buffer each pass reads and writes. *)
Inductive Surface : Type := Offscreen (t : RenderTarget) | Screen.

Inductive Entry : Type :=
| VelocitySet (v : vec2)
| Rendered (m : Material) (reads : option RenderTarget) (writes : Surface)
| Swapped.

(** State with a trace. *)
Definition M (A : Type) : Type := State -> A * State * list Entry.

Definition ret {A : Type} (a : A) : M A := fun s => (a, s, []).
Definition bind {A B : Type} (c : M A) (k : A -> M B) : M B :=
  fun s =>
    let '(a, s1, l1) := c s in
    let '(b, s2, l2) := k a s1 in
    (b, s2, l1 ++ l2).
Definition get : M State := fun s => (s, s, []).
Definition modify (f : State -> State) : M unit := fun s => (tt, f s, []).
Definition emit (e : Entry) : M unit := fun s => (tt, s, [e]).

Notation "x <- c ;; k" := (bind c (fun x => k))
  (at level 61, c at next level, right associativity).
Notation "c ;; k" := (bind c (fun _ => k))
  (at level 61, right associativity).

Definition exec {A : Type} (c : M A) (s : State) : State := snd (fst (c s)).
Definition trace {A : Type} (c : M A) (s : State) : list Entry := snd (c s).

Definition with_pointer (f : Pointer -> Pointer) (s : State) : State :=
  {| pointer := f (pointer s); buffers := buffers s;
     resolution := resolution s; renderer := renderer s; gpu := gpu s |}.
Definition with_buffers (f : Buffers -> Buffers) (s : State) : State :=
  {| pointer := pointer s; buffers := f (buffers s);
     resolution := resolution s; renderer := renderer s; gpu := gpu s |}.
Definition with_resolution (r : vec2) (s : State) : State :=
  {| pointer := pointer s; buffers := buffers s;
     resolution := r; renderer := renderer s; gpu := gpu s |}.
Definition with_renderer (f : Renderer -> Renderer) (s : State) : State :=
  {| pointer := pointer s; buffers := buffers s;
     resolution := resolution s; renderer := f (renderer s); gpu := gpu s |}.
Definition with_gpu (f : Gpu -> Gpu) (s : State) : State :=
  {| pointer := pointer s; buffers := buffers s;
     resolution := resolution s; renderer := renderer s; gpu := f (gpu s) |}.

Definition write_texture (t : RenderTarget) (img : sampler2D) (g : Gpu) : Gpu :=
  {| texture := fun t' => if target_eqb t' t then img else texture g t';
     canvas := canvas g |}.
Definition write_canvas (img : sampler2D) (g : Gpu) : Gpu :=
  {| texture := texture g; canvas := img |}.

Section Scene.

(** The two background images, loaded by [textureLoader.load]. *)
Variables topTexture bottomTexture : sampler2D.

(** [fullScreenQuad.material = m]. *)
Definition setMaterial (m : Material) : M unit :=
  modify (with_renderer (fun r =>
    {| material := m; renderTarget := renderTarget r |})).

(** [renderer.setRenderTarget(t)]. *)
Definition setRenderTarget (t : option RenderTarget) : M unit :=
  modify (with_renderer (fun r =>
    {| material := material r; renderTarget := t |})).

(** The uniforms a material's shader sees when it runs in state [s]. *)
Definition updateUniforms (s : State) : UpdateUniforms :=
  {| uLastFrame := texture (gpu s) (uLastFrame_value (buffers s));
     uMousePos := mouse (pointer s);
     uMouseVelocity := mouseVelocity (pointer s);
     uResolution := resolution s |}.
Definition renderUniforms (s : State) : RenderUniforms :=
  {| uDisplacementMap := texture (gpu s) (uDisplacementMap_value (buffers s));
     uTopTexture := topTexture;
     uBottomTexture := bottomTexture |}.

Definition shaderOutput (s : State) : sampler2D :=
  match material (renderer s) with
  | BasicMaterial => fun _ => Vec4 1 1 1 1
  | UpdateMaterial => displacementUpdate (updateUniforms s)
  | FinalMaterial => finalRender (renderUniforms s)
  end.

Definition shaderReads (s : State) : option RenderTarget :=
  match material (renderer s) with
  | BasicMaterial => None
  | UpdateMaterial => Some (uLastFrame_value (buffers s))
  | FinalMaterial => Some (uDisplacementMap_value (buffers s))
  end.

(** [renderer.render(scene, camera)]: the quad's material is run for
    every fragment and the result stored in the bound target. *)
Definition render : M unit :=
  s <- get ;;
  let img := shaderOutput s in
  match renderTarget (renderer s) with
  | Some t =>
      modify (with_gpu (write_texture t img)) ;;
      emit (Rendered (material (renderer s)) (shaderReads s) (Offscreen t))
  | None =>
      modify (with_gpu (write_canvas img)) ;;
      emit (Rendered (material (renderer s)) (shaderReads s) Screen)
  end.

(** [mouseVelocity.copy(mouse).sub(lastMouse); lastMouse.copy(mouse);] *)
Definition updateVelocity : M unit :=
  s <- get ;;
  let v := vsub (mouse (pointer s)) (lastMouse (pointer s)) in
  modify (with_pointer (fun p =>
    {| mouse := mouse p; lastMouse := lastMouse p; mouseVelocity := v |})) ;;
  emit (VelocitySet v) ;;
  modify (with_pointer (fun p =>
    {| mouse := mouse p; lastMouse := mouse p;
       mouseVelocity := mouseVelocity p |})).

(** The ping-pong swap at the end of [animate]: the three assignments
    through [temp], then the two uniform updates. *)
Definition swapBuffers (b : Buffers) : Buffers :=
  let temp := previousRenderTarget b in
  let previousRenderTarget' := currentRenderTarget b in
  let currentRenderTarget' := temp in
  {| currentRenderTarget := currentRenderTarget';
     previousRenderTarget := previousRenderTarget';
     uLastFrame_value := previousRenderTarget';
     uDisplacementMap_value := currentRenderTarget' |}.

Definition swap : M unit :=
  modify (with_buffers swapBuffers) ;; emit Swapped.

(** [animate], without the [requestAnimationFrame] call that schedules
    the next run: that is the [Frame] input below. *)
Definition animate : M unit :=
  updateVelocity ;;
  setMaterial UpdateMaterial ;;
  (s <- get ;; setRenderTarget (Some (currentRenderTarget (buffers s)))) ;;
  render ;;
  setMaterial FinalMaterial ;;
  setRenderTarget None ;;
  render ;;
  swap.

(** [canvas.getBoundingClientRect()] and the coordinates of a mouse or
    touch event. *)
Record DOMRect : Type := {
  rect_left : R; rect_top : R; rect_width : R; rect_height : R
}.
Record ClientPoint : Type := { clientX : R; clientY : R }.

Definition updateMousePosition (rect : DOMRect) (event : ClientPoint)
  : M unit :=
  modify (with_pointer (fun p =>
    {| mouse := Vec2 ((clientX event - rect_left rect) / rect_width rect)
                     (1 - ((clientY event - rect_top rect)
                             / rect_height rect));
       lastMouse := lastMouse p;
       mouseVelocity := mouseVelocity p |})).

(** The [touchmove] listener. *)
Definition onTouchMove (rect : DOMRect) (touches : list ClientPoint)
  : M unit :=
  match touches with
  | t0 :: _ => updateMousePosition rect t0
  | [] => ret tt
  end.

(** [onWindowResize].  [setSize] resizes the canvas and reallocates the
    textures of both render targets; what they hold afterwards is not
    fixed by the program, so it comes with the input.  The last line
    sets [uResolution]. *)
Definition onWindowResize (newWidth newHeight : R) (reallocated : Gpu)
  : M unit :=
  modify (with_gpu (fun _ => reallocated)) ;;
  modify (with_resolution (Vec2 newWidth newHeight)).

(** Everything the browser can deliver to the page once [init] ran. *)
Inductive Input : Type :=
| MouseMove (rect : DOMRect) (event : ClientPoint)
| TouchMove (rect : DOMRect) (touches : list ClientPoint)
| Frame
| Resize (newWidth newHeight : R) (reallocated : Gpu).

Definition handle (i : Input) : M unit :=
  match i with
  | MouseMove rect event => updateMousePosition rect event
  | TouchMove rect touches => onTouchMove rect touches
  | Frame => animate
  | Resize w h fresh => onWindowResize w h fresh
  end.

(** The state [init] builds before the first [animate()]: the pointer
    vectors, the two targets in their first roles, the uniforms as the
    two materials are constructed. *)
Definition initial (innerWidth innerHeight : R) (g : Gpu) : State :=
  {| pointer := {| mouse := Vec2 (-1) (-1); lastMouse := Vec2 (-1) (-1);
                   mouseVelocity := Vec2 0 0 |};
     buffers := {| currentRenderTarget := TargetA;
                   previousRenderTarget := TargetB;
                   uLastFrame_value := TargetB;
                   uDisplacementMap_value := TargetA |};
     resolution := Vec2 innerWidth innerHeight;
     renderer := {| material := BasicMaterial; renderTarget := None |};
     gpu := g |}.

(** States the page can be in: [initial], then any inputs. *)
Inductive reachable : State -> Prop :=
| reach_init : forall w h g, reachable (initial w h g)
| reach_step : forall s i, reachable s -> reachable (exec (handle i) s).

(** The roles of the double buffer. *)
Definition isCurrent (s : State) (t : RenderTarget) : Prop :=
  currentRenderTarget (buffers s) = t.
Definition isPrevious (s : State) (t : RenderTarget) : Prop :=
  previousRenderTarget (buffers s) = t.

(** The targets are two different objects and each texture uniform
    follows its variable. *)
Definition consistent (b : Buffers) : Prop :=
  currentRenderTarget b <> previousRenderTarget b /\
  uLastFrame_value b = previousRenderTarget b /\
  uDisplacementMap_value b = currentRenderTarget b.

End Scene.

(** Sample inputs: render targets and canvas all black, and a plain
    red and a plain blue background. *)
Definition blankGpu : Gpu :=
  {| texture := fun _ => constField (Vec4 0 0 0 0);
     canvas := constField (Vec4 0 0 0 0) |}.
Definition redImage : sampler2D := constField (Vec4 1 0 0 1).
Definition blueImage : sampler2D := constField (Vec4 0 0 1 1).

End FrameLoop.

(* ================================================================== *)
(** ** The content server of [main.go] *)
(* ================================================================== *)

Module Server.
Open Scope string_scope.

(** [type Item struct]. *)
Record Item : Type := {
  ID : Z;
  KeywordTitle : string;
  Texts : list string;
  VideoPath : list string;
  VideoCredit : list string;
  ItemLink : string
}.

(** A Go call that returns [(value, error)]. *)
Inductive result (A : Type) : Type :=
| Ok (a : A)
| Err (e : string).
Arguments Ok {A} a.
Arguments Err {A} e.

(** *** [http.ResponseWriter]

    The status line goes out with the first [WriteHeader], or with the
    first [Write], which then implies [WriteHeader(http.StatusOK)]; a
    later [WriteHeader] is logged as superfluous and changes nothing.
    [header] is the handler's header map, [sentHeader] the copy taken
    when the status line went out. *)
Record ResponseWriter : Type := {
  wroteHeader : bool;
  status : nat;
  header : list (string * string);
  sentHeader : list (string * string);
  body : string
}.

Definition StatusOK : nat := 200.
Definition StatusMovedPermanently : nat := 301.
Definition StatusTemporaryRedirect : nat := 307.
Definition StatusNotFound : nat := 404.
Definition StatusInternalServerError : nat := 500.

Definition newResponse : ResponseWriter :=
  {| wroteHeader := false; status := 0; header := []; sentHeader := [];
     body := "" |}.

Definition WriteHeader (code : nat) (w : ResponseWriter) : ResponseWriter :=
  if wroteHeader w then w
  else {| wroteHeader := true; status := code; header := header w;
          sentHeader := header w; body := body w |}.

Definition Write (data : string) (w : ResponseWriter) : ResponseWriter :=
  let w := if wroteHeader w then w else WriteHeader StatusOK w in
  {| wroteHeader := wroteHeader w; status := status w; header := header w;
     sentHeader := sentHeader w; body := body w ++ data |}.

Definition headerDel (k : string) (h : list (string * string))
  : list (string * string) :=
  filter (fun kv => negb (String.eqb (fst kv) k)) h.
Definition headerSet (k v : string) (h : list (string * string))
  : list (string * string) :=
  (k, v) :: headerDel k h.

Definition withHeader (f : list (string * string) -> list (string * string))
    (w : ResponseWriter) : ResponseWriter :=
  {| wroteHeader := wroteHeader w; status := status w; header := f (header w);
     sentHeader := sentHeader w; body := body w |}.

Definition newline : string := String (ascii_of_nat 10) EmptyString.

(** [http.Error(w, error, code)]: three header edits, [WriteHeader(code)],
    [fmt.Fprintln(w, error)]. *)
Definition http_Error (w : ResponseWriter) (error : string) (code : nat)
  : ResponseWriter :=
  let w := withHeader (headerDel "Content-Length") w in
  let w := withHeader (headerSet "Content-Type" "text/plain; charset=utf-8") w in
  let w := withHeader (headerSet "X-Content-Type-Options" "nosniff") w in
  let w := WriteHeader code w in
  Write (error ++ newline) w.

(** The server ends a response whose handler never wrote with
    [WriteHeader(http.StatusOK)]. *)
Definition finishRequest (w : ResponseWriter) : ResponseWriter :=
  WriteHeader StatusOK w.

(** *** [html/template]

    The data a handler passes: [nil], or a [map[string]interface{}]. *)
Inductive Value : Type :=
| VString (s : string)
| VItems (l : list Item).
Definition Data : Type := option (list (string * Value)).

(** A parsed template set, by what [ExecuteTemplate(w, name, data)] does:
    the [Write]s it makes on [w], in order, and the error it returns, if
    any.  Execution stops at an error, with what came before it already
    written. *)
Definition Template : Type := string -> Data -> list string * option string.

Definition writeAll (chunks : list string) (w : ResponseWriter)
  : ResponseWriter :=
  fold_left (fun w c => Write c w) chunks w.

Definition Template_ExecuteTemplate (t : Template) (w : ResponseWriter)
    (name : string) (data : Data) : ResponseWriter * option string :=
  let '(chunks, err) := t name data in (writeAll chunks w, err).

(** *** [http.ServeMux] *)

Inductive HandlerId : Type :=
| HomeHandler | StaticFiles | StylesCss | MainJs | Privacy | Tou | Non.

Definition muxEntry : Type := (string * HandlerId)%type.

(** [m] holds every registered pattern, [es] those that end in a slash,
    longest first. *)
Record ServeMux : Type := {
  mux_m : list muxEntry;
  mux_es : list muxEntry
}.

Definition emptyMux : ServeMux := {| mux_m := []; mux_es := [] |}.

Fixpoint lastIsSlash (s : string) : bool :=
  match s with
  | EmptyString => false
  | String c EmptyString => Ascii.eqb c "/"
  | String _ s' => lastIsSlash s'
  end.

Fixpoint appendSorted (es : list muxEntry) (e : muxEntry) : list muxEntry :=
  match es with
  | [] => [e]
  | e' :: rest =>
      if Nat.ltb (String.length (fst e')) (String.length (fst e))
      then e :: e' :: rest
      else e' :: appendSorted rest e
  end.

(** [mux.Handle].  It panics on an empty or repeated pattern; [main]
    registers seven different ones. *)
Definition mux_Handle (pattern : string) (h : HandlerId) (mux : ServeMux)
  : ServeMux :=
  {| mux_m := (pattern, h) :: mux_m mux;
     mux_es := if lastIsSlash pattern
               then appendSorted (mux_es mux) (pattern, h)
               else mux_es mux |}.

Fixpoint lookup (path : string) (m : list muxEntry) : option muxEntry :=
  match m with
  | [] => None
  | e :: rest => if String.eqb (fst e) path then Some e else lookup path rest
  end.

Fixpoint firstPrefix (path : string) (es : list muxEntry) : option muxEntry :=
  match es with
  | [] => None
  | e :: rest =>
      if String.prefix (fst e) path then Some e else firstPrefix path rest
  end.

(** [mux.match]: an exact entry first, else the longest subtree pattern
    that is a prefix of the path. *)
Definition mux_match (mux : ServeMux) (path : string) : option muxEntry :=
  match lookup path (mux_m mux) with
  | Some e => Some e
  | None => firstPrefix path (mux_es mux)
  end.

(** [path.Clean] on a rooted path, by the rules of its documentation:
    runs of slashes count once, [.] elements go, a [..] element goes
    together with the element before it, and [..] at the root goes
    alone. *)
Fixpoint splitSlash (cs : list ascii) (cur : list ascii)
  : list (list ascii) :=
  match cs with
  | [] => [rev cur]
  | c :: cs' =>
      if Ascii.eqb c "/" then rev cur :: splitSlash cs' []
      else splitSlash cs' (c :: cur)
  end.

Definition elements (p : string) : list string :=
  map string_of_list_ascii (splitSlash (list_ascii_of_string p) []).

Fixpoint cleanElements (elems : list string) (kept : list string)
  : list string :=
  match elems with
  | [] => rev kept
  | e :: elems' =>
      if String.eqb e "" || String.eqb e "." then cleanElements elems' kept
      else if String.eqb e ".." then cleanElements elems' (tl kept)
      else cleanElements elems' (e :: kept)
  end.

Definition path_Clean (p : string) : string :=
  "/" ++ String.concat "/" (cleanElements (elements p) []).

(** [cleanPath] of [net/http]: root the path, clean it, and put a
    trailing slash back. *)
Definition cleanPath (p : string) : string :=
  match p with
  | EmptyString => "/"
  | String c _ =>
      let p := if Ascii.eqb c "/" then p else "/" ++ p in
      let np := path_Clean p in
      if lastIsSlash p && negb (String.eqb np "/") then np ++ "/" else np
  end.

(** [mux.shouldRedirectRLocked]: the path is not registered, the path
    plus a slash is. *)
Definition shouldRedirect (mux : ServeMux) (path : string) : bool :=
  match lookup path (mux_m mux) with
  | Some _ => false
  | None =>
      match path with
      | EmptyString => false
      | _ =>
          match lookup (path ++ "/") (mux_m mux) with
          | Some _ => negb (lastIsSlash path)
          | None => false
          end
      end
  end.

(** A request: its method, the decoded [r.URL.Path] and
    [r.URL.RawPath], which [net/url] leaves empty unless the path
    arrived in another encoding than its default one. *)
Record Request : Type := {
  Method : string;
  URL_Path : string;
  URL_RawPath : string
}.

(** The characters [net/url] writes into a path as they are: letters,
    digits, [-_.~] and [$&+,/:;=@]. *)
Definition plainChar (c : ascii) : bool :=
  let n := nat_of_ascii c in
  (Nat.leb 48 n && Nat.leb n 57)
  || (Nat.leb 65 n && Nat.leb n 90)
  || (Nat.leb 97 n && Nat.leb n 122)
  || existsb (Ascii.eqb c) (list_ascii_of_string "-_.~$&+,/:;=@").

(** A request whose path needs no escape and came with none: for these
    [r.URL.EscapedPath()], the string the mux works on, is
    [r.URL.Path] itself. *)
Definition plainRequest (r : Request) : bool :=
  String.eqb (URL_RawPath r) ""
  && forallb plainChar (list_ascii_of_string (URL_Path r)).

(** What the mux answers a request with. *)
Inductive Route : Type :=
| Dispatch (h : HandlerId) (pattern : string)
| RedirectHandler (url : string) (code : nat)
| NotFoundHandler.

Definition mux_handler (mux : ServeMux) (path : string) : Route :=
  match mux_match mux path with
  | Some (pattern, h) => Dispatch h pattern
  | None => NotFoundHandler
  end.

(** What differs between builds of [net/http] or is not modelled here:
    the status of the mux's redirects ([StatusMovedPermanently] in
    older builds, [StatusTemporaryRedirect] in newer ones), the routing
    of a request whose path holds an escape (the mux then works on the
    escaped path, segment by segment), and the note [http.Redirect]
    writes as the body of a redirect. *)
Inductive RedirectCode : Type := MovedPermanently | TemporaryRedirect.

Definition codeOf (c : RedirectCode) : nat :=
  match c with
  | MovedPermanently => StatusMovedPermanently
  | TemporaryRedirect => StatusTemporaryRedirect
  end.

Record NetHTTP : Type := {
  mux_redirectCode : RedirectCode;
  mux_routeEscaped : ServeMux -> Request -> Route;
  http_redirectNote : string -> nat -> string
}.

(** [mux.Handler(r)] for a plain request; any other request is routed
    by [mux_routeEscaped].  No pattern of this server names a host or a
    method, so neither plays a part.  [CONNECT] requests are not
    canonicalised. *)
Definition mux_Handler (net : NetHTTP) (mux : ServeMux) (r : Request)
  : Route :=
  let code := codeOf (mux_redirectCode net) in
  if negb (plainRequest r) then mux_routeEscaped net mux r
  else if String.eqb (Method r) "CONNECT" then
    if shouldRedirect mux (URL_Path r)
    then RedirectHandler (cleanPath (URL_Path r) ++ "/") code
    else mux_handler mux (URL_Path r)
  else
    let path := cleanPath (URL_Path r) in
    if shouldRedirect mux path
    then RedirectHandler (path ++ "/") code
    else if negb (String.eqb path (URL_Path r))
    then RedirectHandler path code
    else mux_handler mux (URL_Path r).

(** [http.Redirect(w, r, url, code)] for a rooted, canonical [url]: the
    [Location] header, a content type and a short note as the body
    unless the handler had set a content type, the note for [GET]
    only. *)
Definition http_Redirect (net : NetHTTP) (w : ResponseWriter) (r : Request)
    (url : string) (code : nat) : ResponseWriter :=
  let hadCT :=
    existsb (fun kv => String.eqb (fst kv) "Content-Type") (header w) in
  let w := withHeader (headerSet "Location" url) w in
  let w :=
    if negb hadCT
       && (String.eqb (Method r) "GET" || String.eqb (Method r) "HEAD")
    then withHeader (headerSet "Content-Type" "text/html; charset=utf-8") w
    else w in
  let w := WriteHeader code w in
  if negb hadCT && String.eqb (Method r) "GET"
  then Write (http_redirectNote net url code ++ newline) w
  else w.


(** *** The process *)

(** What the program finds outside itself: the file system, the JSON
    decoder and the template parser on what they read, the socket, the
    two file-serving helpers of [net/http], and the build of
    [net/http]. *)
Record OS : Type := {
  os_Getwd : result string;
  os_Open : string -> result string;
  json_Decode : string -> result (list Item);
  template_ParseFiles : list string -> result Template;
  net_Listen : string -> string -> result unit;
  http_ServeFile : string -> Request -> ResponseWriter -> ResponseWriter;
  http_FileServer : string -> string -> Request -> ResponseWriter
                    -> ResponseWriter;
  net_http : NetHTTP
}.

(** The package-level variables [items] and [tmpl], and the default
    mux. *)
Record Globals : Type := {
  items : list Item;
  tmpl : option Template;
  DefaultServeMux : ServeMux
}.

Definition zeroGlobals : Globals :=
  {| items := []; tmpl := None; DefaultServeMux := emptyMux |}.

(** A Go computation over the globals: it returns, or the process exits
    ([log.Fatalf] is a log line and [os.Exit(1)]), or the goroutine
    panics. *)
Inductive outcome (A : Type) : Type :=
| Done (a : A) (g : Globals)
| Exited (code : nat) (logged : string)
| Panicked (msg : string).
Arguments Done {A} a g.
Arguments Exited {A} code logged.
Arguments Panicked {A} msg.

Definition Go (A : Type) : Type := Globals -> outcome A.

Definition ret {A : Type} (a : A) : Go A := fun g => Done a g.
Definition bind {A B : Type} (c : Go A) (k : A -> Go B) : Go B :=
  fun g =>
    match c g with
    | Done a g' => k a g'
    | Exited code l => Exited code l
    | Panicked m => Panicked m
    end.
Definition getGlobals : Go Globals := fun g => Done g g.
Definition setGlobals (f : Globals -> Globals) : Go unit :=
  fun g => Done tt (f g).
Definition log_Fatalf {A : Type} (msg : string) : Go A :=
  fun _ => Exited 1 msg.
Definition panic {A : Type} (msg : string) : Go A := fun _ => Panicked msg.

Notation "x <- c ;; k" := (bind c (fun x => k))
  (at level 61, c at next level, right associativity).
Notation "c ;; k" := (bind c (fun _ => k))
  (at level 61, right associativity).
Notation "' pat <- c ;; k" :=
  (bind c (fun x => match x with pat => k end))
  (at level 61, pat pattern, c at next level, right associativity).

Section Process.

Variable os : OS.

(** [filepath.Clean] (slash-separated): [path.Clean]'s rules; a path
    that is not rooted keeps the [..] elements it starts with and is
    [.] when nothing is left. *)
Fixpoint cleanRelative (elems : list string) (kept : list string)
  : list string :=
  match elems with
  | [] => rev kept
  | e :: elems' =>
      if String.eqb e "" || String.eqb e "." then cleanRelative elems' kept
      else if String.eqb e ".." then
        match kept with
        | [] => cleanRelative elems' [".."]
        | k :: kept' =>
            if String.eqb k ".." then cleanRelative elems' (".." :: kept)
            else cleanRelative elems' kept'
        end
      else cleanRelative elems' (e :: kept)
  end.

Definition filepath_Clean (p : string) : string :=
  match p with
  | EmptyString => "."
  | String c _ =>
      if Ascii.eqb c "/" then path_Clean p
      else
        match cleanRelative (elements p) [] with
        | [] => "."
        | kept => String.concat "/" kept
        end
  end.

(** [filepath.Join]: the elements that are not empty, joined by
    slashes and cleaned; the empty string when there is none. *)
Definition filepath_Join (elems : list string) : string :=
  match filter (fun e => negb (String.eqb e "")) elems with
  | [] => ""
  | kept => filepath_Clean (String.concat "/" kept)
  end.

Definition loadItems : Go unit :=
  match os_Getwd os with
  | Err err => log_Fatalf ("Failed to get working directory: " ++ err)
  | Ok currDir =>
      let filePath := filepath_Join [currDir; "static"; "data"; "items.json"] in
      match os_Open os filePath with
      | Err err => log_Fatalf ("Failed to open " ++ filePath ++ ": " ++ err)
      | Ok f =>
          match json_Decode os f with
          | Err err => log_Fatalf ("Failed to decode items.json: " ++ err)
          | Ok decoded =>
              setGlobals (fun g =>
                {| items := decoded; tmpl := tmpl g;
                   DefaultServeMux := DefaultServeMux g |})
          end
      end
  end.

(** [tmpl.ExecuteTemplate(w, name, data)] on the package-level [tmpl]. *)
Definition tmpl_ExecuteTemplate (w : ResponseWriter) (name : string)
    (data : Data) : Go (ResponseWriter * option string) :=
  g <- getGlobals ;;
  match tmpl g with
  | None => panic "nil pointer dereference"
  | Some t => ret (Template_ExecuteTemplate t w name data)
  end.

Definition homeHandler (w : ResponseWriter) (r : Request)
  : Go ResponseWriter :=
  g <- getGlobals ;;
  let data := Some [("Title", VString "BlendingWaves");
                    ("Items", VItems (items g))] in
  '(w, err) <- tmpl_ExecuteTemplate w "home.html" data ;;
  match err with
  | Some e => ret (http_Error w e StatusInternalServerError)
  | None => ret w
  end.

(** The three informational pages share one shape. *)
Definition infoHandler (content : string) (w : ResponseWriter) (r : Request)
  : Go ResponseWriter :=
  '(w, err) <- tmpl_ExecuteTemplate w "header.html" None ;;
  match err with
  | Some e => ret (http_Error w e StatusInternalServerError)
  | None =>
      let w := Write content w in
      '(w, err) <- tmpl_ExecuteTemplate w "footer.html" None ;;
      match err with
      | Some e => ret (http_Error w e StatusInternalServerError)
      | None => ret w
      end
  end.

Fixpoint stripPrefix (prefix s : string) : option string :=
  match prefix, s with
  | EmptyString, _ => Some s
  | String a p', String b s' =>
      if Ascii.eqb a b then stripPrefix p' s' else None
  | String _ _, EmptyString => None
  end.

Definition NotFound (w : ResponseWriter) : ResponseWriter :=
  http_Error w "404 page not found" StatusNotFound.

Definition runHandler (h : HandlerId) (w : ResponseWriter) (r : Request)
  : Go ResponseWriter :=
  match h with
  | HomeHandler => homeHandler w r
  | StaticFiles =>
      (* http.StripPrefix: the prefix must come off [Path] and, when
         there is one, off [RawPath] as well *)
      match stripPrefix "/static/" (URL_Path r) with
      | Some p =>
          if String.eqb (URL_RawPath r) "" then
            ret (http_FileServer os "./static" p r w)
          else
            match stripPrefix "/static/" (URL_RawPath r) with
            | Some _ => ret (http_FileServer os "./static" p r w)
            | None => ret (NotFound w)
            end
      | None => ret (NotFound w)
      end
  | StylesCss => ret (http_ServeFile os "styles.css" r w)
  | MainJs => ret (http_ServeFile os "main.js" r w)
  | Privacy =>
      infoHandler
        "<h1>Privacy Policy</h1><p>Your privacy is important to us.</p>" w r
  | Tou =>
      infoHandler
        "<h1>Terms of Use</h1><p>Please read our terms of use.</p>" w r
  | Non =>
      infoHandler
        "<h1>Nondiscrimination Policy</h1><p>We are committed to nondiscrimination.</p>"
        w r
  end.

Definition http_Handle (pattern : string) (h : HandlerId) : Go unit :=
  setGlobals (fun g =>
    {| items := items g; tmpl := tmpl g;
       DefaultServeMux := mux_Handle pattern h (DefaultServeMux g) |}).

(** [main] up to the call of [http.Serve]: [Done] is the process about
    to serve, with the globals every request will see. *)
Definition main : Go unit :=
  loadItems ;;
  match template_ParseFiles os
          ["templates/header.html"; "templates/footer.html";
           "templates/home.html"] with
  | Err err => log_Fatalf ("Error parsing templates: " ++ err)
  | Ok t =>
      setGlobals (fun g =>
        {| items := items g; tmpl := Some t;
           DefaultServeMux := DefaultServeMux g |}) ;;
      http_Handle "/" HomeHandler ;;
      http_Handle "/static/" StaticFiles ;;
      http_Handle "/styles.css" StylesCss ;;
      http_Handle "/main.js" MainJs ;;
      http_Handle "/privacy" Privacy ;;
      http_Handle "/tou" Tou ;;
      http_Handle "/non" Non ;;
      match net_Listen os "tcp4" ":8080" with
      | Err err => log_Fatalf ("Failed to bind to IPv4: " ++ err)
      | Ok _ => ret tt
      end
  end.

(** [http.Serve(ln, nil)] on one request: the default mux picks the
    handler, the handler runs on a fresh writer, the server completes
    the response. *)
Definition serveHTTP (r : Request) : Go ResponseWriter :=
  g <- getGlobals ;;
  match mux_Handler (net_http os) (DefaultServeMux g) r with
  | Dispatch h _ =>
      w <- runHandler h newResponse r ;; ret (finishRequest w)
  | RedirectHandler url code =>
      ret (finishRequest (http_Redirect (net_http os) newResponse r url code))
  | NotFoundHandler => ret (finishRequest (NotFound newResponse))
  end.

End Process.

(** The routes [main] registers. *)
Definition routes : ServeMux :=
  mux_Handle "/non" Non
    (mux_Handle "/tou" Tou
      (mux_Handle "/privacy" Privacy
        (mux_Handle "/main.js" MainJs
          (mux_Handle "/styles.css" StylesCss
            (mux_Handle "/static/" StaticFiles
              (mux_Handle "/" HomeHandler emptyMux)))))).



(** The arguments of [template.ParseFiles] in [main] and the [data] of
    [homeHandler], by name. *)
Definition templateFiles : list string :=
  ["templates/header.html"; "templates/footer.html"; "templates/home.html"].

Definition homeData (g : Globals) : Data :=
  Some [("Title", VString "BlendingWaves"); ("Items", VItems (items g))].

(** The process from its start to the response to its first request. *)
Definition startAndServe (os : OS) (r : Request) : outcome ResponseWriter :=
  (main os ;; serveHTTP os r) zeroGlobals.

Definition responseStatus (o : outcome ResponseWriter) : option nat :=
  match o with
  | Done w _ => Some (status w)
  | _ => None
  end.

Definition responseBody (o : outcome ResponseWriter) : option string :=
  match o with
  | Done w _ => Some (body w)
  | _ => None
  end.

Definition catalogAfter {A : Type} (o : outcome A) : option (list Item) :=
  match o with
  | Done _ g => Some (items g)
  | _ => None
  end.

(** Sample inputs.  The catalog of one item; a template set whose
    [home.html] prints the opening tag and the titles; one whose
    [home.html] fails after it has written the opening tag; one whose
    [home.html] fails before it writes anything; and an operating system
    where every call succeeds and the catalog file decodes to the one
    item. *)
Definition sampleItem : Item :=
  {| ID := 1; KeywordTitle := "Test"; Texts := ["a"]; VideoPath := [];
     VideoCredit := []; ItemLink := "http://x" |}.

Definition titles (data : Data) : list string :=
  match data with
  | Some (_ :: (_, VItems l) :: _) => map KeywordTitle l
  | _ => []
  end.

Definition goodTemplate : Template :=
  fun name data =>
    if String.eqb name "home.html"
    then ("<html>" :: titles data ++ ["</html>"], None)
    else ([name], None).

Definition failsMidway : Template :=
  fun name data =>
    if String.eqb name "home.html"
    then (["<html>"], Some "error calling index: index out of range: 99")
    else ([name], None).

Definition failsAtOnce : Template :=
  fun name data =>
    if String.eqb name "home.html"
    then ([], Some "html/template: home.html: ends in a non-text context")
    else ([name], None).

(** A sample build of [net/http] for either redirect status; its note
    is the one [http.Redirect] writes for a plain URL. *)
Definition doubleQuote : string := String (ascii_of_nat 34) EmptyString.

Definition StatusText (code : nat) : string :=
  if Nat.eqb code StatusMovedPermanently then "Moved Permanently"
  else if Nat.eqb code StatusTemporaryRedirect then "Temporary Redirect"
  else "".

Definition sampleNote (url : string) (code : nat) : string :=
  "<a href=" ++ doubleQuote ++ url ++ doubleQuote ++ ">"
  ++ StatusText code ++ "</a>." ++ newline.

Definition sampleNet (c : RedirectCode) : NetHTTP :=
  {| mux_redirectCode := c;
     mux_routeEscaped := fun mux _ => mux_handler mux "/";
     http_redirectNote := sampleNote |}.

Definition sampleOSOn (net : NetHTTP) (t : Template) : OS :=
  {| os_Getwd := Ok "/srv";
     os_Open := fun _ => Ok "[...]";
     json_Decode := fun _ => Ok [sampleItem];
     template_ParseFiles := fun _ => Ok t;
     net_Listen := fun _ _ => Ok tt;
     http_ServeFile := fun _ _ w => Write "file" w;
     http_FileServer := fun _ _ _ w => Write "file" w;
     net_http := net |}.

Definition sampleOS (t : Template) : OS :=
  sampleOSOn (sampleNet TemporaryRedirect) t.

Definition GET (path : string) : Request :=
  {| Method := "GET"; URL_Path := path; URL_RawPath := "" |}.

End Server.

(* ================================================================== *)
(** ** The fixed header of the page ([manageHeaderVisibility]) *)
(* ================================================================== *)

Module Page.
Open Scope R_scope.

(** [a > b] on JavaScript numbers. *)
Definition gtb (a b : R) : bool := if Rlt_dec b a then true else false.

(** The closure variable [lastScrollY] and whether the header's class
    list holds ['hidden']. *)
Record HeaderState : Type := {
  lastScrollY : R;
  hidden : bool
}.

(** What a scroll event finds: [window.scrollY] and, read anew each
    time, [header.offsetHeight]. *)
Record ScrollEvent : Type := {
  scrollY : R;
  offsetHeight : R
}.

(** [updateHeader]. *)
Definition updateHeader (e : ScrollEvent) (h : HeaderState) : HeaderState :=
  let currentScrollY := scrollY e in
  {| hidden :=
       if gtb currentScrollY (lastScrollY h)
          && gtb currentScrollY (offsetHeight e)
       then true
       else false;
     lastScrollY := currentScrollY |}.

(** [manageHeaderVisibility(header)]: nothing is installed for a
    missing header; otherwise the listener starts from the scroll
    position of that moment and the header's class list as it is. *)
Definition manageHeaderVisibility (header : option bool) (scrollY0 : R)
  : option HeaderState :=
  match header with
  | None => None
  | Some hasHidden => Some {| lastScrollY := scrollY0; hidden := hasHidden |}
  end.

(** Scroll events, oldest first. *)
Definition scrollAll (events : list ScrollEvent) (h : HeaderState)
  : HeaderState :=
  fold_left (fun h e => updateHeader e h) events h.

End Page.

(* ================================================================== *)
(** ** Colours *)
(* ================================================================== *)

Module Colors.
Import GLSL.
Open Scope R_scope.

(** Every channel lies in [0, 1], as the channels of an image do. *)
Definition displayable (c : vec4) : Prop :=
  0 <= cr c <= 1 /\ 0 <= cg c <= 1 /\ 0 <= cb c <= 1 /\ 0 <= ca c <= 1.

(** Both displacement components lie within [b] of zero. *)
Definition within (b : R) (c : vec4) : Prop :=
  - b <= cr c <= b /\ - b <= cg c <= b.

End Colors.

(* ================================================================== *)
(** ** Runs of the frame loop *)
(* ================================================================== *)

Module FrameRuns.
Import GLSL Shaders FrameLoop.
Open Scope R_scope.

Section Scene.

Variables topTexture bottomTexture : sampler2D.

(** Inputs handled one after the other, oldest first. *)
Definition runInputs (inputs : list Input) (s : State) : State :=
  fold_left (fun s i => exec (handle topTexture bottomTexture i) s) inputs s.

(** [n] runs of [animate] with no other input in between. *)
Fixpoint frames (n : nat) (s : State) : State :=
  match n with
  | O => s
  | S n' => exec (animate topTexture bottomTexture) (frames n' s)
  end.

End Scene.

(** The position [updateMousePosition] stores for an event. *)
Definition pointerAt (rect : DOMRect) (event : ClientPoint) : vec2 :=
  Vec2 ((clientX event - rect_left rect) / rect_width rect)
       (1 - ((clientY event - rect_top rect) / rect_height rect)).

(** The event lies on a canvas of positive size. *)
Definition inside (rect : DOMRect) (event : ClientPoint) : Prop :=
  0 < rect_width rect /\ 0 < rect_height rect /\
  rect_left rect <= clientX event <= rect_left rect + rect_width rect /\
  rect_top rect <= clientY event <= rect_top rect + rect_height rect.

(** The field the last frame wrote: after the swap it is the texture of
    the previous target. *)
Definition latestField (s : State) : sampler2D :=
  texture (gpu s) (previousRenderTarget (buffers s)).

(** A frame that follows a frame directly finds the pointer where the
    frame before sampled it. *)
Definition settled (s : State) : Prop :=
  consistent (buffers s) /\ lastMouse (pointer s) = mouse (pointer s).

(** A field whose displacement is zero everywhere. *)
Definition flat (field : sampler2D) : Prop := forall p, rg (field p) = vzero.

Definition sampleRect : DOMRect :=
  {| rect_left := 0; rect_top := 0; rect_width := 800; rect_height := 600 |}.
Definition samplePoint : ClientPoint := {| clientX := 400; clientY := 150 |}.

End FrameRuns.

(* ================================================================== *)
(** ** More sample inputs for the content server *)
(* ================================================================== *)

Module ServerSamples.
Import Server.
Open Scope string_scope.

(** A template set whose [footer.html] fails before it writes, and one
    whose [header.html] does. *)
Definition failsInFooter : Template :=
  fun name data =>
    if String.eqb name "footer.html"
    then ([], Some "template: no template footer.html")
    else ([name], None).

Definition failsInHeader : Template :=
  fun name data =>
    if String.eqb name "header.html"
    then ([], Some "template: no template header.html")
    else ([name], None).

(** The file [loadItems] opens, for a working directory. *)
Definition catalogPath (dir : string) : string :=
  filepath_Join [dir; "static"; "data"; "items.json"].

Definition servingGlobals (t : Template) : Globals :=
  {| items := [sampleItem]; tmpl := Some t; DefaultServeMux := routes |}.

End ServerSamples.

(* ================================================================== *)
(** ** Facts about the GLSL built-ins *)
(* ================================================================== *)

Unset Implicit Arguments.

Module GLSLFacts.
Import GLSL.
Open Scope R_scope.

Lemma clamp01_range (v : R) : 0 <= clamp v 0 1 <= 1.
Proof.
  unfold clamp. split.
  - apply Rmin_glb; [apply Rmax_r | lra].
  - apply Rmin_r.
Qed.

Lemma clamp01_low (v : R) : v <= 0 -> clamp v 0 1 = 0.
Proof.
  intros Hv. unfold clamp.
  rewrite Rmax_right by exact Hv. apply Rmin_left; lra.
Qed.

Lemma clamp01_high (v : R) : 1 <= v -> clamp v 0 1 = 1.
Proof.
  intros Hv. unfold clamp.
  rewrite Rmax_left by lra. apply Rmin_right; exact Hv.
Qed.

Lemma clamp01_mono (a b : R) : a <= b -> clamp a 0 1 <= clamp b 0 1.
Proof.
  intros Hab. unfold clamp.
  apply Rle_min_compat_r. apply Rle_max_compat_r. exact Hab.
Qed.

(** [clamp] never stretches a gap. *)
Lemma clamp01_gap (a b : R) :
  a <= b -> clamp b 0 1 - clamp a 0 1 <= b - a.
Proof.
  intros Hab. unfold clamp, Rmin, Rmax.
  repeat (destruct (Rle_dec _ _)); lra.
Qed.

Lemma hermite_factor (s t : R) :
  hermite t - hermite s
  = (t - s) * (3 * (s + t) - 2 * (s * s + s * t + t * t)).
Proof. unfold hermite. ring. Qed.

Lemma hermite_slope (s t : R) :
  0 <= s <= 1 -> 0 <= t <= 1 ->
  0 <= 3 * (s + t) - 2 * (s * s + s * t + t * t) <= 3 / 2.
Proof.
  intros [Hs0 Hs1] [Ht0 Ht1]. split.
  - assert (0 <= s * (1 - s)) by (apply Rmult_le_pos; lra).
    assert (0 <= t * (1 - t)) by (apply Rmult_le_pos; lra).
    assert (0 <= s * (1 - t)) by (apply Rmult_le_pos; lra).
    assert (0 <= t * (1 - s)) by (apply Rmult_le_pos; lra).
    lra.
  - pose proof (Rle_0_sqr (s - t)) as Hd.
    pose proof (Rle_0_sqr (s + t - 1)) as Hm.
    unfold Rsqr in Hd, Hm. lra.
Qed.

Lemma hermite_mono (s t : R) :
  0 <= s -> s <= t -> t <= 1 -> hermite s <= hermite t.
Proof.
  intros Hs Hst Ht.
  pose proof (hermite_factor s t) as Hf.
  pose proof (hermite_slope s t ltac:(lra) ltac:(lra)) as [Hlo _].
  assert (0 <= (t - s) * (3 * (s + t) - 2 * (s * s + s * t + t * t)))
    by (apply Rmult_le_pos; lra).
  lra.
Qed.

Lemma hermite_gap (s t : R) :
  0 <= s -> s <= t -> t <= 1 -> hermite t - hermite s <= 3 / 2 * (t - s).
Proof.
  intros Hs Hst Ht.
  rewrite hermite_factor.
  pose proof (hermite_slope s t ltac:(lra) ltac:(lra)) as [_ Hhi].
  rewrite (Rmult_comm (3 / 2)).
  apply Rmult_le_compat_l; lra.
Qed.

Lemma hermite_0 : hermite 0 = 0.
Proof. unfold hermite. ring. Qed.

Lemma hermite_1 : hermite 1 = 1.
Proof. unfold hermite. ring. Qed.

Lemma hermite_range (t : R) : 0 <= t <= 1 -> 0 <= hermite t <= 1.
Proof.
  intros [H0 H1]. split.
  - rewrite <- hermite_0. apply hermite_mono; lra.
  - rewrite <- hermite_1. apply hermite_mono; lra.
Qed.

Section ReversedEdges.

(** [smoothstep(e, 0.0, x)] for a positive [e]. *)
Variable e : R.
Hypothesis e_pos : 0 < e.

Lemma ramp_reversed (v : R) : (v - e) / (0 - e) = 1 - v / e.
Proof. field. lra. Qed.

Lemma ramp_antitone (a b : R) :
  a <= b -> (b - e) / (0 - e) <= (a - e) / (0 - e).
Proof.
  intros Hab. rewrite !ramp_reversed.
  assert (a / e <= b / e).
  { unfold Rdiv. apply Rmult_le_compat_r; [|exact Hab].
    left. apply Rinv_0_lt_compat. exact e_pos. }
  lra.
Qed.

Lemma ramp_gap (a b : R) :
  (a - e) / (0 - e) - (b - e) / (0 - e) = (b - a) / e.
Proof. field. lra. Qed.

Lemma smoothstep_rev_range (v : R) : 0 <= smoothstep e 0 v <= 1.
Proof. unfold smoothstep. apply hermite_range. apply clamp01_range. Qed.

Lemma smoothstep_rev_at_0 : smoothstep e 0 0 = 1.
Proof.
  unfold smoothstep. rewrite ramp_reversed.
  replace (1 - 0 / e) with 1 by (field; lra).
  rewrite clamp01_high by lra. apply hermite_1.
Qed.

Lemma smoothstep_rev_beyond (v : R) : e <= v -> smoothstep e 0 v = 0.
Proof.
  intros Hv. unfold smoothstep.
  rewrite clamp01_low; [apply hermite_0|].
  rewrite ramp_reversed.
  assert (1 <= v / e).
  { apply (Rmult_le_reg_r e); [exact e_pos|].
    unfold Rdiv. rewrite Rmult_assoc, Rinv_l by lra. lra. }
  lra.
Qed.

Lemma smoothstep_rev_antitone (a b : R) :
  a <= b -> smoothstep e 0 b <= smoothstep e 0 a.
Proof.
  intros Hab. unfold smoothstep.
  apply hermite_mono.
  - apply clamp01_range.
  - apply clamp01_mono. apply ramp_antitone. exact Hab.
  - apply clamp01_range.
Qed.

(** No step anywhere: the value moves at most [3 / (2 e)] times as far
    as the argument. *)
Lemma smoothstep_rev_gap (a b : R) :
  a <= b -> smoothstep e 0 a - smoothstep e 0 b <= 3 / 2 * ((b - a) / e).
Proof.
  intros Hab. unfold smoothstep.
  set (ta := clamp ((a - e) / (0 - e)) 0 1).
  set (tb := clamp ((b - e) / (0 - e)) 0 1).
  assert (Hmono : tb <= ta)
    by (apply clamp01_mono, ramp_antitone; exact Hab).
  assert (Hgap : ta - tb <= (b - a) / e).
  { rewrite <- ramp_gap. apply clamp01_gap. apply ramp_antitone. exact Hab. }
  pose proof (clamp01_range ((a - e) / (0 - e))) as [_ Ha1].
  pose proof (clamp01_range ((b - e) / (0 - e))) as [Hb0 _].
  fold ta in Ha1. fold tb in Hb0.
  pose proof (hermite_gap tb ta Hb0 Hmono Ha1). lra.
Qed.

Lemma smoothstep_rev_lipschitz (a b : R) :
  Rabs (smoothstep e 0 a - smoothstep e 0 b) <= 3 / 2 * (Rabs (a - b) / e).
Proof.
  destruct (Rle_lt_dec a b) as [Hab | Hba].
  - pose proof (smoothstep_rev_antitone a b Hab).
    pose proof (smoothstep_rev_gap a b Hab).
    rewrite Rabs_right by lra.
    rewrite (Rabs_left1 (a - b)) by lra.
    replace (- (a - b)) with (b - a) by ring. lra.
  - assert (Hba' : b <= a) by lra.
    pose proof (smoothstep_rev_antitone b a Hba').
    pose proof (smoothstep_rev_gap b a Hba').
    rewrite Rabs_left1 by lra.
    rewrite (Rabs_right (a - b)) by lra. lra.
Qed.

End ReversedEdges.

Lemma length_nonneg (v : vec2) : 0 <= length v.
Proof. unfold length. apply sqrt_pos. Qed.

Lemma length_vzero : length vzero = 0.
Proof.
  unfold length, vzero; simpl.
  replace (0 * 0 + 0 * 0) with 0 by ring. apply sqrt_0.
Qed.

Lemma sum_squares_nonneg (a b : R) : 0 <= a * a + b * b.
Proof.
  pose proof (Rle_0_sqr a). pose proof (Rle_0_sqr b).
  unfold Rsqr in *. lra.
Qed.

Lemma length_zero_iff (v : vec2) : length v = 0 <-> v = vzero.
Proof.
  split.
  - intros H. unfold length in H.
    apply sqrt_eq_0 in H; [|apply sum_squares_nonneg].
    destruct v as [a b]; simpl in H.
    pose proof (Rle_0_sqr a) as Ha. pose proof (Rle_0_sqr b) as Hb.
    unfold Rsqr in Ha, Hb.
    assert (a * a = 0) by lra. assert (b * b = 0) by lra.
    unfold vzero. f_equal; apply Rsqr_0_uniq; unfold Rsqr; assumption.
  - intros ->. apply length_vzero.
Qed.

Lemma length_vscale (v : vec2) (k : R) :
  0 <= k -> length (vscale v k) = k * length v.
Proof.
  intros Hk. unfold length, vscale; simpl.
  replace (vx v * k * (vx v * k) + vy v * k * (vy v * k))
    with ((k * k) * (vx v * vx v + vy v * vy v)) by ring.
  rewrite sqrt_mult_alt.
  - rewrite sqrt_square by exact Hk. reflexivity.
  - pose proof (Rle_0_sqr k) as H. unfold Rsqr in H. exact H.
Qed.

End GLSLFacts.

(* ================================================================== *)
(** ** The update pass *)
(* ================================================================== *)

Module UpdatePass.
Import GLSL Shaders GLSLFacts.
Open Scope R_scope.

Lemma radius_pos : 0 < radius.
Proof. unfold radius. lra. Qed.

Lemma falloff_at_0 : falloff 0 = 1.
Proof. apply smoothstep_rev_at_0, radius_pos. Qed.

Lemma falloff_beyond (d : R) : radius <= d -> falloff d = 0.
Proof. apply smoothstep_rev_beyond, radius_pos. Qed.

Lemma falloff_range (d : R) : 0 <= falloff d <= 1.
Proof. apply smoothstep_rev_range. Qed.

Lemma falloff_antitone (d1 d2 : R) : d1 <= d2 -> falloff d2 <= falloff d1.
Proof. apply smoothstep_rev_antitone, radius_pos. Qed.

Lemma falloff_lipschitz (d1 d2 : R) :
  Rabs (falloff d1 - falloff d2) <= 7.5 * Rabs (d1 - d2).
Proof.
  pose proof (smoothstep_rev_lipschitz radius radius_pos d1 d2) as H.
  fold (falloff d1) in H. fold (falloff d2) in H.
  unfold radius in H. lra.
Qed.

(** The shader is the spec's decay-then-add at gain 2.5. *)
Lemma update_is_decay_then_add (u : UpdateUniforms) (vUv : vec2) :
  displacementUpdate u vUv
  = spec_decay_then_add (uLastFrame u vUv) (uMouseVelocity u)
      (strength u vUv) gain.
Proof.
  unfold displacementUpdate, spec_decay_then_add, brush, rg_add, vscale4,
    vscale, texture2D; simpl.
  f_equal; ring.
Qed.

Lemma dist_unfolded (u : UpdateUniforms) (vUv : vec2) :
  dist u vUv
  = sqrt ((vx vUv * aspectRatio u - vx (uMousePos u) * aspectRatio u)
          * (vx vUv * aspectRatio u - vx (uMousePos u) * aspectRatio u)
          + (vy vUv - vy (uMousePos u)) * (vy vUv - vy (uMousePos u))).
Proof. reflexivity. Qed.

Lemma dist_at_pointer (u : UpdateUniforms) : dist u (uMousePos u) = 0.
Proof.
  rewrite dist_unfolded.
  match goal with |- sqrt ?e = 0 => replace e with 0 by ring end.
  apply sqrt_0.
Qed.

Lemma brush_beyond (u : UpdateUniforms) (vUv : vec2) :
  radius <= dist u vUv -> brush u vUv = vzero.
Proof.
  intros H. unfold brush, strength. rewrite (falloff_beyond _ H).
  unfold vscale, vzero; simpl. f_equal; ring.
Qed.

Lemma brush_at_0 (u : UpdateUniforms) (vUv : vec2) :
  dist u vUv = 0 -> brush u vUv = vscale (uMouseVelocity u) gain.
Proof.
  intros H. unfold brush, strength. rewrite H, falloff_at_0.
  unfold vscale; simpl. f_equal; ring.
Qed.

Lemma brush_still (u : UpdateUniforms) (vUv : vec2) :
  uMouseVelocity u = vzero -> brush u vUv = vzero.
Proof.
  intros H. unfold brush. rewrite H.
  unfold vscale, vzero; simpl. f_equal; ring.
Qed.

(** C1.  The update shader returns the previous value times 0.95 and
    then adds, to the first two components only, 2.5 times the pointer
    velocity times the falloff of the aspect-corrected distance; the
    added part is not decayed.  The falloff is 1 at distance 0, 0 at
    distance 0.2, stays within [0, 1], never grows with the distance and
    has no step (it moves at most 7.5 times as far as the distance). *)
Theorem C1_update_decays_then_adds_brush :
  forall (u : UpdateUniforms) (vUv : vec2),
    displacementUpdate u vUv
    = Vec4 (0.95 * cr (uLastFrame u vUv)
            + 2.5 * falloff (dist u vUv) * vx (uMouseVelocity u))
           (0.95 * cg (uLastFrame u vUv)
            + 2.5 * falloff (dist u vUv) * vy (uMouseVelocity u))
           (0.95 * cb (uLastFrame u vUv))
           (0.95 * ca (uLastFrame u vUv))
    /\ dist u vUv
       = distance (Vec2 (vx vUv * (vx (uResolution u) / vy (uResolution u)))
                        (vy vUv))
                  (Vec2 (vx (uMousePos u)
                         * (vx (uResolution u) / vy (uResolution u)))
                        (vy (uMousePos u)))
    /\ falloff 0 = 1
    /\ falloff 0.2 = 0
    /\ (forall d, 0 <= falloff d <= 1)
    /\ (forall d1 d2, d1 <= d2 -> falloff d2 <= falloff d1)
    /\ (forall d1 d2, Rabs (falloff d1 - falloff d2) <= 7.5 * Rabs (d1 - d2))
    /\ displacementUpdate (sampleUpdate (Vec4 1 1 0 0) (Vec2 1 0)) (Vec2 0 0)
       <> spec_add_then_decay (Vec4 1 1 0 0) (Vec2 1 0) 1 2.5.
Proof.
  intros u vUv. repeat split.
  - rewrite update_is_decay_then_add.
    unfold spec_decay_then_add, strength, damping, gain. reflexivity.
  - apply falloff_at_0.
  - apply falloff_beyond. unfold radius. lra.
  - apply falloff_range.
  - apply falloff_range.
  - apply falloff_antitone.
  - apply falloff_lipschitz.
  - rewrite update_is_decay_then_add.
    unfold strength.
    replace (dist (sampleUpdate (Vec4 1 1 0 0) (Vec2 1 0)) (Vec2 0 0))
      with 0 by (symmetry; apply (dist_at_pointer (sampleUpdate _ _))).
    rewrite falloff_at_0.
    unfold spec_decay_then_add, spec_add_then_decay, sampleUpdate,
      constField, damping, gain; simpl.
    intros Heq. injection Heq as Hr _. lra.
Qed.

(** The theorem at the sample uniforms: a pointer moving right over a
    field that holds (1, 1, 0, 0). *)
Lemma C1_witness :
  falloff 1 <= falloff 0
  /\ cr (displacementUpdate (sampleUpdate (Vec4 1 1 0 0) (Vec2 1 0))
           (Vec2 0 0)) = 0.95 + 2.5.
Proof.
  destruct (C1_update_decays_then_adds_brush
              (sampleUpdate (Vec4 1 1 0 0) (Vec2 1 0)) (Vec2 0 0))
    as (Heq & _ & H0 & _ & _ & Hmono & _).
  split.
  - apply Hmono. lra.
  - rewrite Heq. simpl.
    replace (dist (sampleUpdate (Vec4 1 1 0 0) (Vec2 1 0)) (Vec2 0 0))
      with 0 by (symmetry; apply (dist_at_pointer (sampleUpdate _ _))).
    rewrite H0. lra.
Defined.

(** One decay-only pass scales the displacement by 0.95. *)
Lemma decay_only_pass (q : PointerUniforms) (f : sampler2D) (p : vec2) :
  decayOnly q -> updatePass q f p = vscale4 (f p) damping.
Proof.
  intros Hq. unfold updatePass, displacementUpdate.
  rewrite brush_still by exact Hq.
  unfold rg_add, vscale4, vzero, texture2D; simpl. f_equal; ring.
Qed.

Lemma magnitude_decay_only (q : PointerUniforms) (f : sampler2D) (p : vec2) :
  decayOnly q -> magnitude (updatePass q f) p = damping * magnitude f p.
Proof.
  intros Hq. unfold magnitude. rewrite decay_only_pass by exact Hq.
  replace (rg (vscale4 (f p) damping)) with (vscale (rg (f p)) damping)
    by reflexivity.
  apply length_vscale. unfold damping. lra.
Qed.

Lemma magnitude_nonneg (f : sampler2D) (p : vec2) : 0 <= magnitude f p.
Proof. apply length_nonneg. Qed.

Section DecayOnlyRun.

Variable ps : nat -> PointerUniforms.
Hypothesis still : forall n, decayOnly (ps n).
Variable field0 : sampler2D.
Variable p : vec2.

Lemma magnitude_step (n : nat) :
  magnitude (fieldAt ps field0 (S n)) p
  = damping * magnitude (fieldAt ps field0 n) p.
Proof. simpl. apply magnitude_decay_only, still. Qed.

Lemma magnitude_closed_form (n : nat) :
  magnitude (fieldAt ps field0 n) p = damping ^ n * magnitude field0 p.
Proof.
  induction n as [|n IH].
  - simpl. ring.
  - rewrite magnitude_step, IH. simpl. ring.
Qed.

Lemma magnitude_strictly_decreases (n : nat) :
  magnitude (fieldAt ps field0 n) p <> 0 ->
  magnitude (fieldAt ps field0 (S n)) p < magnitude (fieldAt ps field0 n) p.
Proof.
  intros Hnz. rewrite magnitude_step.
  pose proof (magnitude_nonneg (fieldAt ps field0 n) p).
  unfold damping. lra.
Qed.

Lemma zero_is_fixed (n : nat) :
  fieldAt ps field0 n p = Vec4 0 0 0 0 ->
  fieldAt ps field0 (S n) p = Vec4 0 0 0 0.
Proof.
  intros Hz. simpl. rewrite decay_only_pass by apply still.
  rewrite Hz. unfold vscale4; simpl. f_equal; ring.
Qed.

Lemma magnitude_vanishes (eps : R) :
  0 < eps ->
  exists N, forall n, (N <= n)%nat ->
    magnitude (fieldAt ps field0 n) p < eps.
Proof.
  intros Heps.
  pose proof (magnitude_nonneg field0 p) as Hm0.
  assert (Hd : Rabs damping < 1)
    by (unfold damping; rewrite Rabs_right; lra).
  destruct (pow_lt_1_zero damping Hd (eps / (magnitude field0 p + 1)))
    as [N HN].
  { apply Rdiv_lt_0_compat; lra. }
  exists N. intros n Hn.
  rewrite magnitude_closed_form.
  specialize (HN n Hn).
  assert (Hpow : 0 <= damping ^ n) by (apply pow_le; unfold damping; lra).
  rewrite Rabs_right in HN by lra.
  assert (Hlt : damping ^ n * (magnitude field0 p + 1) < eps).
  { apply (Rmult_lt_compat_r (magnitude field0 p + 1)) in HN; [|lra].
    unfold Rdiv in HN. rewrite Rmult_assoc, Rinv_l in HN by lra. lra. }
  assert (damping ^ n * magnitude field0 p
          <= damping ^ n * (magnitude field0 p + 1))
    by (apply Rmult_le_compat_l; lra).
  lra.
Qed.

End DecayOnlyRun.

(** C2.  In every run of update passes whose pointer velocity is zero
    in every frame, the displacement magnitude at every point is 0.95
    times what it was the frame before: it strictly decreases as long
    as it is not zero, it falls below every positive bound from some
    frame on, and a field value of zero stays zero. *)
Theorem C2_decay_only_strictly_decreases_to_zero :
  forall (ps : nat -> PointerUniforms) (field0 : sampler2D) (p : vec2),
    (forall n, decayOnly (ps n)) ->
    (forall n, magnitude (fieldAt ps field0 (S n)) p
               = 0.95 * magnitude (fieldAt ps field0 n) p)
    /\ (forall n, magnitude (fieldAt ps field0 n) p <> 0 ->
                  magnitude (fieldAt ps field0 (S n)) p
                  < magnitude (fieldAt ps field0 n) p)
    /\ (forall eps, 0 < eps ->
          exists N, forall n, (N <= n)%nat ->
            magnitude (fieldAt ps field0 n) p < eps)
    /\ (forall n, fieldAt ps field0 n p = Vec4 0 0 0 0 ->
                  fieldAt ps field0 (S n) p = Vec4 0 0 0 0).
Proof.
  intros ps field0 p Hstill. repeat split.
  - intros n. apply magnitude_step, Hstill.
  - intros n. apply magnitude_strictly_decreases, Hstill.
  - intros eps. apply magnitude_vanishes, Hstill.
  - intros n. apply zero_is_fixed, Hstill.
Qed.

Lemma magnitude_sample : magnitude (constField (Vec4 1 0 0 0)) (Vec2 0 0) = 1.
Proof.
  unfold magnitude, constField, length; simpl.
  replace (1 * 1 + 0 * 0) with 1 by ring. apply sqrt_1.
Qed.

(** The theorem on a still pointer over a field that holds (1, 0, 0, 0):
    after one frame the magnitude is 0.95. *)
Lemma C2_witness :
  (forall n, decayOnly (stillPointer n))
  /\ magnitude (fieldAt stillPointer (constField (Vec4 1 0 0 0)) 1) (Vec2 0 0)
     = 0.95
  /\ magnitude (fieldAt stillPointer (constField (Vec4 1 0 0 0)) 1) (Vec2 0 0)
     < magnitude (fieldAt stillPointer (constField (Vec4 1 0 0 0)) 0)
                 (Vec2 0 0).
Proof.
  assert (Hstill : forall n, decayOnly (stillPointer n))
    by (intros n; reflexivity).
  destruct (C2_decay_only_strictly_decreases_to_zero
              stillPointer (constField (Vec4 1 0 0 0)) (Vec2 0 0) Hstill)
    as (Hstep & Hdec & _ & _).
  split; [exact Hstill|]. split.
  - rewrite Hstep. simpl. rewrite magnitude_sample. lra.
  - apply Hdec. simpl. rewrite magnitude_sample. lra.
Defined.

(** The claim as it is worded fails for a pointer at rest: the brush
    adds nothing at distance 0 either, so the contribution there is not
    larger than the one beyond the radius. *)
Lemma C3_counterexample_zero_velocity :
  uMouseVelocity (sampleUpdate (Vec4 0 0 0 0) vzero) = vzero
  /\ dist (sampleUpdate (Vec4 0 0 0 0) vzero) (Vec2 0 0) = 0
  /\ radius <= dist (sampleUpdate (Vec4 0 0 0 0) vzero) (Vec2 0 1)
  /\ length (brush (sampleUpdate (Vec4 0 0 0 0) vzero) (Vec2 0 0)) = 0
  /\ length (brush (sampleUpdate (Vec4 0 0 0 0) vzero) (Vec2 0 1)) = 0
  /\ ~ (length (brush (sampleUpdate (Vec4 0 0 0 0) vzero) (Vec2 0 1))
        < length (brush (sampleUpdate (Vec4 0 0 0 0) vzero) (Vec2 0 0))).
Proof.
  assert (Hd1 : dist (sampleUpdate (Vec4 0 0 0 0) vzero) (Vec2 0 1) = 1).
  { rewrite dist_unfolded. simpl.
    match goal with |- sqrt ?e = 1 => replace e with 1 by (field; lra) end.
    apply sqrt_1. }
  assert (Hb : forall uv,
             length (brush (sampleUpdate (Vec4 0 0 0 0) vzero) uv) = 0).
  { intros uv. rewrite brush_still by reflexivity. apply length_vzero. }
  repeat split.
  - apply (dist_at_pointer (sampleUpdate _ _)).
  - rewrite Hd1. unfold radius. lra.
  - apply Hb.
  - apply Hb.
  - rewrite !Hb. lra.
Qed.

(** C3, amended.  For every pointer velocity other than zero, the brush
    at distance 0 adds 2.5 times the velocity, which is strictly larger
    in magnitude than what it adds at any distance of 0.2 or more; and
    for every velocity the brush adds nothing at a distance of 0.2 or
    more, where the pass returns the decayed previous value alone. *)
Theorem C3_brush_full_at_pointer_none_beyond_radius :
  forall (u0 u1 : UpdateUniforms) (uv0 uv1 : vec2),
    uMouseVelocity u0 = uMouseVelocity u1 ->
    dist u0 uv0 = 0 ->
    0.2 <= dist u1 uv1 ->
    brush u1 uv1 = vzero
    /\ displacementUpdate u1 uv1 = vscale4 (uLastFrame u1 uv1) 0.95
    /\ brush u0 uv0 = vscale (uMouseVelocity u0) 2.5
    /\ (uMouseVelocity u0 <> vzero ->
        length (brush u1 uv1) < length (brush u0 uv0)).
Proof.
  intros u0 u1 uv0 uv1 Hvel H0 H1.
  assert (Hb1 : brush u1 uv1 = vzero) by (apply brush_beyond; exact H1).
  assert (Hb0 : brush u0 uv0 = vscale (uMouseVelocity u0) gain)
    by (apply brush_at_0; exact H0).
  repeat split.
  - exact Hb1.
  - unfold displacementUpdate. rewrite Hb1.
    unfold rg_add, vscale4, vzero, texture2D, damping; simpl.
    f_equal; ring.
  - exact Hb0.
  - intros Hnz. rewrite Hb1, Hb0, length_vzero.
    rewrite length_vscale by (unfold gain; lra).
    pose proof (length_nonneg (uMouseVelocity u0)) as Hge.
    assert (length (uMouseVelocity u0) <> 0)
      by (intros Hz; apply Hnz, length_zero_iff; exact Hz).
    unfold gain. lra.
Qed.

(** The amended claim for a pointer moving right: 2.5 at the pointer,
    nothing one unit away. *)
Lemma C3_witness :
  length (brush (sampleUpdate (Vec4 0 0 0 0) (Vec2 1 0)) (Vec2 0 1))
  < length (brush (sampleUpdate (Vec4 0 0 0 0) (Vec2 1 0)) (Vec2 0 0)).
Proof.
  assert (Hd1 : 0.2 <= dist (sampleUpdate (Vec4 0 0 0 0) (Vec2 1 0))
                            (Vec2 0 1)).
  { rewrite dist_unfolded. simpl.
    match goal with |- _ <= sqrt ?e => replace e with 1 by (field; lra) end.
    rewrite sqrt_1. lra. }
  assert (Hnz : uMouseVelocity (sampleUpdate (Vec4 0 0 0 0) (Vec2 1 0))
                <> vzero).
  { simpl. unfold vzero. intros Heq. injection Heq as Hx. lra. }
  exact (proj2 (proj2 (proj2
    (C3_brush_full_at_pointer_none_beyond_radius
       (sampleUpdate (Vec4 0 0 0 0) (Vec2 1 0))
       (sampleUpdate (Vec4 0 0 0 0) (Vec2 1 0))
       (Vec2 0 0) (Vec2 0 1) eq_refl
       (dist_at_pointer (sampleUpdate (Vec4 0 0 0 0) (Vec2 1 0)))
       Hd1))) Hnz).
Defined.

End UpdatePass.

(* ================================================================== *)
(** ** The composite pass *)
(* ================================================================== *)

Module CompositePass.
Import GLSL Shaders GLSLFacts.
Open Scope R_scope.

Lemma threshold_pos : 0 < threshold.
Proof. unfold threshold. lra. Qed.

Lemma opacity_at_0 : opacity 0 = 1.
Proof. apply smoothstep_rev_at_0, threshold_pos. Qed.

Lemma opacity_beyond (m : R) : threshold <= m -> opacity m = 0.
Proof. apply smoothstep_rev_beyond, threshold_pos. Qed.

Lemma opacity_range (m : R) : 0 <= opacity m <= 1.
Proof. apply smoothstep_rev_range. Qed.

Lemma opacity_antitone (m1 m2 : R) : m1 <= m2 -> opacity m2 <= opacity m1.
Proof. apply smoothstep_rev_antitone, threshold_pos. Qed.

Lemma opacity_lipschitz (m1 m2 : R) :
  Rabs (opacity m1 - opacity m2) <= 15 * Rabs (m1 - m2).
Proof.
  pose proof (smoothstep_rev_lipschitz threshold threshold_pos m1 m2) as H.
  fold (opacity m1) in H. fold (opacity m2) in H.
  unfold threshold in H. lra.
Qed.

Lemma vadd_vzero (v : vec2) (k : R) : vadd v (vscale vzero k) = v.
Proof.
  destruct v as [a b]. unfold vadd, vscale, vzero; simpl. f_equal; ring.
Qed.

Lemma mix4_at_1 (p q : vec4) : mix4 p q 1 = q.
Proof.
  destruct q as [r g b a]. unfold mix4, mix; simpl. f_equal; ring.
Qed.

Lemma mix4_at_0 (p q : vec4) : mix4 p q 0 = p.
Proof.
  destruct p as [r g b a]. unfold mix4, mix; simpl. f_equal; ring.
Qed.

(** C4.  At every screen position the top layer is sampled at the
    coordinate plus 0.1 times the displacement and the bottom layer at
    the coordinate plus 0.05 times the displacement, so the top offset
    is exactly twice the bottom offset; the bottom sample's colour
    channels are multiplied by 0.2; and the output is, channel by
    channel, [mix] of the darkened bottom sample and the top sample at
    the top layer's computed opacity (the top sample's own alpha is
    replaced by that opacity before the blend). *)
Theorem C4_composite_offsets_darkens_and_blends :
  forall (u : RenderUniforms) (vUv : vec2),
    let d := rg (uDisplacementMap u vUv) in
    let top := uTopTexture u (topUV u vUv) in
    let bottom := uBottomTexture u (bottomUV u vUv) in
    let a := opacity (length d) in
    topUV u vUv = Vec2 (vx vUv + vx d * 0.1) (vy vUv + vy d * 0.1)
    /\ bottomUV u vUv = Vec2 (vx vUv + vx d * 0.05) (vy vUv + vy d * 0.05)
    /\ vsub (topUV u vUv) vUv = vscale (vsub (bottomUV u vUv) vUv) 2
    /\ bottomColor u vUv
       = Vec4 (cr bottom * 0.2) (cg bottom * 0.2) (cb bottom * 0.2)
              (ca bottom)
    /\ finalRender u vUv
       = Vec4 (cr bottom * 0.2 * (1 - a) + cr top * a)
              (cg bottom * 0.2 * (1 - a) + cg top * a)
              (cb bottom * 0.2 * (1 - a) + cb top * a)
              (ca bottom * (1 - a) + a * a).
Proof.
  intros u vUv d top bottom a. repeat split.
  unfold topUV, bottomUV, displacement, vsub, vscale, vadd, texture2D,
    topScale, bottomScale; simpl.
  f_equal; lra.
Qed.

Lemma displacementAmount_zero (u : RenderUniforms) (vUv : vec2) :
  displacement u vUv = vzero -> displacementAmount u vUv = 0.
Proof.
  intros H. unfold displacementAmount. rewrite H. apply length_vzero.
Qed.

(** C5.  When the displacement field is zero everywhere, the output at
    every screen position is the top image's sample at that very
    coordinate with alpha 1, whatever the bottom image is. *)
Theorem C5_zero_field_shows_top_image :
  forall (u : RenderUniforms),
    (forall p, rg (uDisplacementMap u p) = vzero) ->
    forall (vUv : vec2),
      topUV u vUv = vUv
      /\ ca (topColor u vUv) = 1
      /\ finalRender u vUv = set_a (uTopTexture u vUv) 1
      /\ (forall other : sampler2D,
            finalRender {| uDisplacementMap := uDisplacementMap u;
                           uTopTexture := uTopTexture u;
                           uBottomTexture := other |} vUv
            = finalRender u vUv).
Proof.
  intros u Hzero vUv.
  assert (Hd : forall w, displacement w vUv = rg (uDisplacementMap w vUv))
    by reflexivity.
  assert (Hfinal : forall w,
             uDisplacementMap w = uDisplacementMap u ->
             uTopTexture w = uTopTexture u ->
             finalRender w vUv = set_a (uTopTexture u vUv) 1).
  { intros w Hm Ht.
    assert (Hw : displacement w vUv = vzero) by (rewrite Hd, Hm; apply Hzero).
    unfold finalRender, topColor, topUV.
    rewrite (displacementAmount_zero w vUv Hw), Hw, vadd_vzero, opacity_at_0.
    simpl. rewrite mix4_at_1. unfold texture2D. rewrite Ht. reflexivity. }
  assert (Htop : topUV u vUv = vUv).
  { unfold topUV. rewrite Hd, Hzero. apply vadd_vzero. }
  repeat split.
  - exact Htop.
  - unfold topColor; simpl.
    rewrite (displacementAmount_zero u vUv) by (rewrite Hd; apply Hzero).
    apply opacity_at_0.
  - apply Hfinal; reflexivity.
  - intros other. rewrite (Hfinal u eq_refl eq_refl).
    apply Hfinal; reflexivity.
Qed.

(** The theorem on the sample images: a red top over a blue bottom shows
    red. *)
Lemma C5_witness :
  finalRender (sampleRender vzero) (Vec2 0.5 0.5) = Vec4 1 0 0 1.
Proof.
  exact (proj1 (proj2 (proj2
    (C5_zero_field_shows_top_image (sampleRender vzero)
       (fun _ => eq_refl) (Vec2 0.5 0.5))))).
Defined.

(** C6.  The top layer's opacity, the alpha the shader gives
    [topColor] and blends with, is [smoothstep(0.1, 0.0, .)] of the
    displacement magnitude, the length of the field's first two
    components.  Where that magnitude is 0.1 or more the opacity is
    exactly 0 and the output is exactly the bottom sample with its
    colour channels multiplied by 0.2.  The opacity is 1 where the
    displacement is zero, stays within [0, 1], never grows with the
    magnitude and has no step (it moves at most 15 times as far as the
    magnitude). *)
Theorem C6_strong_displacement_reveals_bottom :
  forall (u : RenderUniforms) (vUv : vec2),
    0.1 <= displacementAmount u vUv ->
    ca (topColor u vUv) = 0
    /\ finalRender u vUv
       = rgb_mul (uBottomTexture u (bottomUV u vUv)) 0.2
    /\ (forall u' p,
          displacementAmount u' p = length (rg (uDisplacementMap u' p))
          /\ ca (topColor u' p) = opacity (displacementAmount u' p)
          /\ finalRender u' p
             = mix4 (bottomColor u' p) (topColor u' p)
                    (opacity (displacementAmount u' p)))
    /\ (forall u' p,
          rg (uDisplacementMap u' p) = vzero -> ca (topColor u' p) = 1)
    /\ (forall u' p, 0 <= ca (topColor u' p) <= 1)
    /\ (forall u1 p1 u2 p2,
          displacementAmount u1 p1 <= displacementAmount u2 p2 ->
          ca (topColor u2 p2) <= ca (topColor u1 p1))
    /\ (forall u1 p1 u2 p2,
          Rabs (ca (topColor u1 p1) - ca (topColor u2 p2))
          <= 15 * Rabs (displacementAmount u1 p1 - displacementAmount u2 p2))
    /\ opacity 0 = 1
    /\ (forall m, 0 <= opacity m <= 1)
    /\ (forall m1 m2, m1 <= m2 -> opacity m2 <= opacity m1)
    /\ (forall m1 m2, Rabs (opacity m1 - opacity m2) <= 15 * Rabs (m1 - m2)).
Proof.
  intros u vUv Hbig.
  assert (Halpha : forall u' p,
             ca (topColor u' p) = opacity (displacementAmount u' p))
    by reflexivity.
  assert (Ha : ca (topColor u vUv) = 0).
  { rewrite Halpha. apply opacity_beyond. exact Hbig. }
  split; [exact Ha|].
  split; [unfold finalRender; rewrite Ha, mix4_at_0; reflexivity|].
  split; [intros u' p; repeat split|].
  split.
  { intros u' p Hz. rewrite Halpha.
    rewrite (displacementAmount_zero u' p Hz). apply opacity_at_0. }
  split; [intros u' p; rewrite Halpha; apply opacity_range|].
  split; [intros u1 p1 u2 p2 Hle; rewrite !Halpha;
          apply opacity_antitone; exact Hle|].
  split; [intros u1 p1 u2 p2; rewrite !Halpha; apply opacity_lipschitz|].
  split; [apply opacity_at_0|].
  split; [apply opacity_range|].
  split; [apply opacity_antitone | apply opacity_lipschitz].
Qed.

Lemma sample_amount : displacementAmount (sampleRender (Vec2 1 0)) (Vec2 0.5 0.5) = 1.
Proof.
  unfold displacementAmount, displacement, sampleRender, constField,
    texture2D, length; simpl.
  replace (1 * 1 + 0 * 0) with 1 by ring. apply sqrt_1.
Qed.

(** The theorem on the sample images at displacement (1, 0): the output
    is the blue bottom at one fifth. *)
Lemma C6_witness :
  0.1 <= displacementAmount (sampleRender (Vec2 1 0)) (Vec2 0.5 0.5)
  /\ finalRender (sampleRender (Vec2 1 0)) (Vec2 0.5 0.5)
     = Vec4 (0 * 0.2) (0 * 0.2) (1 * 0.2) 1.
Proof.
  assert (Hbig : 0.1 <= displacementAmount (sampleRender (Vec2 1 0))
                                            (Vec2 0.5 0.5))
    by (rewrite sample_amount; lra).
  split; [exact Hbig|].
  exact (proj1 (proj2
    (C6_strong_displacement_reveals_bottom (sampleRender (Vec2 1 0))
       (Vec2 0.5 0.5) Hbig))).
Defined.

End CompositePass.

(* ================================================================== *)
(** ** The double buffer and the frame loop *)
(* ================================================================== *)

Module FrameLoopSpec.
Import GLSL Shaders FrameLoop.
Open Scope R_scope.

Lemma target_eqb_refl (t : RenderTarget) : target_eqb t t = true.
Proof. destruct t; reflexivity. Qed.

Lemma target_eqb_neq (a b : RenderTarget) : a <> b -> target_eqb a b = false.
Proof. destruct a, b; intros H; try reflexivity; exfalso; apply H; reflexivity. Qed.

Lemma swapBuffers_roles (b : Buffers) :
  currentRenderTarget (swapBuffers b) = previousRenderTarget b
  /\ previousRenderTarget (swapBuffers b) = currentRenderTarget b.
Proof. split; reflexivity. Qed.

Lemma swapBuffers_uniforms (b : Buffers) :
  uLastFrame_value (swapBuffers b) = previousRenderTarget (swapBuffers b)
  /\ uDisplacementMap_value (swapBuffers b)
     = currentRenderTarget (swapBuffers b).
Proof. split; reflexivity. Qed.

Lemma swapBuffers_consistent (b : Buffers) :
  currentRenderTarget b <> previousRenderTarget b ->
  consistent (swapBuffers b).
Proof.
  intros Hneq. unfold consistent. repeat split.
  simpl. intros Heq. apply Hneq. symmetry. exact Heq.
Qed.

Lemma swapBuffers_twice (b : Buffers) :
  consistent b -> swapBuffers (swapBuffers b) = b.
Proof.
  intros (_ & Hl & Hd). destruct b as [c p l d]; simpl in *.
  unfold swapBuffers; simpl. subst l d. reflexivity.
Qed.

(** C7.  The swap exchanges the two roles, so two swaps give each
    render target its first role back; and when the two variables refer
    to the two different targets, as they do from [init] on, then after
    a swap every target holds exactly one of the two roles and the other
    target holds the other one.  The texture uniforms follow the
    variables, so two swaps of consistent buffers change nothing. *)
Theorem C7_swap_twice_restores_roles :
  forall (s : State),
    currentRenderTarget (buffers s) <> previousRenderTarget (buffers s) ->
    (forall t, isCurrent (exec swap (exec swap s)) t <-> isCurrent s t)
    /\ (forall t, isPrevious (exec swap (exec swap s)) t <-> isPrevious s t)
    /\ (forall t, isCurrent (exec swap s) t <-> isPrevious s t)
    /\ (forall t, isPrevious (exec swap s) t <-> isCurrent s t)
    /\ (forall t,
          (isCurrent (exec swap s) t /\ ~ isPrevious (exec swap s) t
           /\ isPrevious (exec swap s) (other t))
          \/ (isPrevious (exec swap s) t /\ ~ isCurrent (exec swap s) t
              /\ isCurrent (exec swap s) (other t)))
    /\ consistent (buffers (exec swap s))
    /\ (consistent (buffers s) ->
        buffers (exec swap (exec swap s)) = buffers s).
Proof.
  intros s Hneq.
  assert (Htwice : consistent (buffers s) ->
                   buffers (exec swap (exec swap s)) = buffers s)
    by (intros Hc; apply (swapBuffers_twice (buffers s) Hc)).
  assert (Hcons : consistent (buffers (exec swap s)))
    by (apply (swapBuffers_consistent (buffers s) Hneq)).
  split; [|split; [|split; [|split; [|split; [|split;
    [exact Hcons | exact Htwice]]]]]];
    unfold isCurrent, isPrevious, exec, swap; simpl;
    try (intros t; split; intros H; exact H).
  intros t.
  destruct (currentRenderTarget (buffers s)) eqn:Hc;
    destruct (previousRenderTarget (buffers s)) eqn:Hp;
    try (exfalso; apply Hneq; reflexivity);
    destruct t; simpl;
    first [ left; repeat split; discriminate
          | right; repeat split; discriminate ].
Qed.

(** The theorem at the state [init] builds: after one swap the second
    target is current and the first one previous. *)
Lemma C7_witness :
  isCurrent (exec swap (initial 800 600 blankGpu)) TargetB
  /\ isPrevious (exec swap (initial 800 600 blankGpu)) TargetA
  /\ isCurrent (exec swap (exec swap (initial 800 600 blankGpu))) TargetA.
Proof.
  assert (Hneq : currentRenderTarget (buffers (initial 800 600 blankGpu))
                 <> previousRenderTarget (buffers (initial 800 600 blankGpu)))
    by (simpl; discriminate).
  destruct (C7_swap_twice_restores_roles (initial 800 600 blankGpu) Hneq)
    as (H2c & _ & H1c & H1p & _).
  split; [|split].
  - apply H1c. reflexivity.
  - apply H1p. reflexivity.
  - apply H2c. reflexivity.
Defined.

Section Frames.

Variables topTexture bottomTexture : sampler2D.

Local Abbreviation handle := (handle topTexture bottomTexture).
Local Abbreviation animate := (animate topTexture bottomTexture).
Local Abbreviation reachable := (reachable topTexture bottomTexture).

Lemma initial_consistent (w h : R) (g : Gpu) :
  consistent (buffers (initial w h g)).
Proof. unfold consistent; simpl. repeat split. discriminate. Qed.

Lemma animate_buffers (s : State) :
  buffers (exec animate s) = swapBuffers (buffers s).
Proof.
  destruct s as [ptr b res [mat rt] g].
  unfold exec, FrameLoop.animate, render, bind; simpl.
  reflexivity.
Qed.

Lemma pointer_input_keeps_buffers (i : Input) (s : State) :
  i <> Frame -> buffers (exec (handle i) s) = buffers s.
Proof.
  intros Hi. destruct i as [rect ev | rect touches | | w h fresh].
  - reflexivity.
  - destruct touches; reflexivity.
  - exfalso. apply Hi. reflexivity.
  - reflexivity.
Qed.

Lemma handle_consistent (i : Input) (s : State) :
  consistent (buffers s) -> consistent (buffers (exec (handle i) s)).
Proof.
  intros Hc. destruct i as [rect ev | rect touches | | w h fresh].
  - rewrite pointer_input_keeps_buffers by discriminate. exact Hc.
  - rewrite pointer_input_keeps_buffers by discriminate. exact Hc.
  - simpl handle. rewrite animate_buffers.
    apply swapBuffers_consistent. apply Hc.
  - rewrite pointer_input_keeps_buffers by discriminate. exact Hc.
Qed.

Lemma reachable_consistent (s : State) :
  reachable s -> consistent (buffers s).
Proof.
  induction 1 as [w h g | s i _ IH].
  - apply initial_consistent.
  - apply handle_consistent. exact IH.
Qed.

(** What one run of [animate] does to a state whose buffers are
    consistent. *)
Lemma animate_frame (s : State) :
  consistent (buffers s) ->
  let cur := currentRenderTarget (buffers s) in
  let prev := previousRenderTarget (buffers s) in
  let v := vsub (mouse (pointer s)) (lastMouse (pointer s)) in
  let field :=
    displacementUpdate
      {| uLastFrame := texture (gpu s) prev; uMousePos := mouse (pointer s);
         uMouseVelocity := v; uResolution := resolution s |} in
  trace animate s
  = [VelocitySet v;
     Rendered UpdateMaterial (Some prev) (Offscreen cur);
     Rendered FinalMaterial (Some cur) Screen;
     Swapped]
  /\ pointer (exec animate s)
     = {| mouse := mouse (pointer s); lastMouse := mouse (pointer s);
          mouseVelocity := v |}
  /\ texture (gpu (exec animate s)) cur = field
  /\ texture (gpu (exec animate s)) prev = texture (gpu s) prev
  /\ canvas (gpu (exec animate s))
     = finalRender {| uDisplacementMap := field; uTopTexture := topTexture;
                      uBottomTexture := bottomTexture |}.
Proof.
  destruct s as [[m lm mv] [c p l d] res [mat rt] [tex cv]].
  intros (Hneq & Hl & Hd); simpl in Hneq, Hl, Hd. subst l d.
  assert (Hpc : target_eqb p c = false)
    by (apply target_eqb_neq; intros Heq; apply Hneq; symmetry; exact Heq).
  unfold trace, exec, FrameLoop.animate, render, updateVelocity, bind,
    shaderOutput, shaderReads; simpl.
  unfold renderUniforms, updateUniforms; simpl.
  rewrite target_eqb_refl, Hpc.
  repeat split.
Qed.

(** C8.  In every state the page can reach, one run of [animate] does
    exactly four things in this order: it sets the velocity, once, to
    the pointer sample minus the sample of the previous frame (and keeps
    the sample for the next frame); it runs the update pass, which reads
    the previous target and writes the current one; it runs the
    composite pass, which reads the target just written and writes the
    canvas; it swaps the roles.  The two targets differ, so no pass
    reads what it writes, and the next frame (here with no pointer
    input in between) reads what this one wrote and writes the other
    target, not the one this frame composited.  A mouse or touch move
    changes the pointer position and nothing else: not the velocity,
    not the sample of the previous frame, no buffer, and it runs no
    pass. *)
Theorem C8_frame_runs_velocity_update_composite_swap :
  forall (s : State),
    reachable s ->
    let cur := currentRenderTarget (buffers s) in
    let prev := previousRenderTarget (buffers s) in
    let v := vsub (mouse (pointer s)) (lastMouse (pointer s)) in
    let field :=
      displacementUpdate
        {| uLastFrame := texture (gpu s) prev;
           uMousePos := mouse (pointer s);
           uMouseVelocity := v; uResolution := resolution s |} in
    trace animate s
    = [VelocitySet v;
       Rendered UpdateMaterial (Some prev) (Offscreen cur);
       Rendered FinalMaterial (Some cur) Screen;
       Swapped]
    /\ cur <> prev
    /\ pointer (exec animate s)
       = {| mouse := mouse (pointer s); lastMouse := mouse (pointer s);
            mouseVelocity := v |}
    /\ texture (gpu (exec animate s)) cur = field
    /\ texture (gpu (exec animate s)) prev = texture (gpu s) prev
    /\ canvas (gpu (exec animate s))
       = finalRender {| uDisplacementMap := field;
                        uTopTexture := topTexture;
                        uBottomTexture := bottomTexture |}
    /\ currentRenderTarget (buffers (exec animate s)) = prev
    /\ previousRenderTarget (buffers (exec animate s)) = cur
    /\ trace animate (exec animate s)
       = [VelocitySet (vsub (mouse (pointer s)) (mouse (pointer s)));
          Rendered UpdateMaterial (Some cur) (Offscreen prev);
          Rendered FinalMaterial (Some prev) Screen;
          Swapped]
    /\ (forall rect event,
          trace (handle (MouseMove rect event)) s = []
          /\ exec (handle (MouseMove rect event)) s
             = with_pointer (fun p =>
                 {| mouse := Vec2 ((clientX event - rect_left rect)
                                   / rect_width rect)
                                  (1 - (clientY event - rect_top rect)
                                       / rect_height rect);
                    lastMouse := lastMouse p;
                    mouseVelocity := mouseVelocity p |}) s)
    /\ (forall rect touches,
          trace (handle (TouchMove rect touches)) s = []
          /\ mouseVelocity (pointer (exec (handle (TouchMove rect touches)) s))
             = mouseVelocity (pointer s)
          /\ lastMouse (pointer (exec (handle (TouchMove rect touches)) s))
             = lastMouse (pointer s)
          /\ buffers (exec (handle (TouchMove rect touches)) s) = buffers s
          /\ gpu (exec (handle (TouchMove rect touches)) s) = gpu s).
Proof.
  intros s Hreach cur prev v field.
  pose proof (reachable_consistent s Hreach) as Hc.
  destruct (animate_frame s Hc) as (Htrace & Hptr & Hcur & Hprev & Hcanvas).
  split; [exact Htrace|].
  split; [apply Hc|].
  split; [exact Hptr|].
  split; [exact Hcur|].
  split; [exact Hprev|].
  split; [exact Hcanvas|].
  split; [rewrite animate_buffers; reflexivity|].
  split; [rewrite animate_buffers; reflexivity|].
  split.
  { assert (Hc1 : consistent (buffers (exec animate s)))
      by (apply (handle_consistent Frame s Hc)).
    destruct (animate_frame (exec animate s) Hc1) as (Hnext & _).
    rewrite Hnext, animate_buffers, Hptr. reflexivity. }
  split.
  - intros rect event. split; reflexivity.
  - intros rect touches. destruct touches; repeat split.
Qed.

End Frames.

(** The theorem at the state [init] builds, for the first frame: the
    pointer has not moved, the pass reads the second target and writes
    the first, which the composite then reads. *)
Lemma C8_witness :
  reachable redImage blueImage (initial 800 600 blankGpu)
  /\ trace (animate redImage blueImage) (initial 800 600 blankGpu)
     = [VelocitySet (vsub (Vec2 (-1) (-1)) (Vec2 (-1) (-1)));
        Rendered UpdateMaterial (Some TargetB) (Offscreen TargetA);
        Rendered FinalMaterial (Some TargetA) Screen;
        Swapped].
Proof.
  split; [apply reach_init|].
  exact (proj1 (C8_frame_runs_velocity_update_composite_swap
                  redImage blueImage (initial 800 600 blankGpu)
                  (reach_init redImage blueImage 800 600 blankGpu))).
Defined.

End FrameLoopSpec.

(* ================================================================== *)
(** ** The content server: start-up and the home handler *)
(* ================================================================== *)

Module ServerSpec.
Import Server.
Open Scope string_scope.

(** *** The response writer *)

Lemma Write_started (d : string) (w : ResponseWriter) :
  wroteHeader w = true ->
  wroteHeader (Write d w) = true /\ status (Write d w) = status w.
Proof. intros H. unfold Write. rewrite H. simpl. split; [exact H | reflexivity]. Qed.

Lemma Write_fresh (d : string) (w : ResponseWriter) :
  wroteHeader w = false ->
  wroteHeader (Write d w) = true /\ status (Write d w) = StatusOK.
Proof.
  intros H. unfold Write, WriteHeader. rewrite H. simpl.
  split; reflexivity.
Qed.

Lemma writeAll_started (chunks : list string) :
  forall w, wroteHeader w = true ->
    wroteHeader (writeAll chunks w) = true
    /\ status (writeAll chunks w) = status w.
Proof.
  induction chunks as [|c chunks IH]; intros w H.
  - split; [exact H | reflexivity].
  - destruct (Write_started c w H) as [Hw Hs].
    destruct (IH (Write c w) Hw) as [Hw' Hs'].
    simpl. split; [exact Hw' | rewrite Hs'; exact Hs].
Qed.

Lemma writeAll_fresh (c : string) (chunks : list string) (w : ResponseWriter) :
  wroteHeader w = false ->
  wroteHeader (writeAll (c :: chunks) w) = true
  /\ status (writeAll (c :: chunks) w) = StatusOK.
Proof.
  intros H. destruct (Write_fresh c w H) as [Hw Hs].
  destruct (writeAll_started chunks (Write c w) Hw) as [Hw' Hs'].
  simpl. split; [exact Hw' | rewrite Hs'; exact Hs].
Qed.

Lemma http_Error_status (w : ResponseWriter) (e : string) (code : nat) :
  wroteHeader (http_Error w e code) = true
  /\ status (http_Error w e code)
     = if wroteHeader w then status w else code.
Proof.
  unfold http_Error, Write, WriteHeader, withHeader; simpl.
  destruct (wroteHeader w) eqn:H; simpl; rewrite ?H; simpl; split; reflexivity.
Qed.

Lemma finishRequest_status (w : ResponseWriter) :
  status (finishRequest w) = if wroteHeader w then status w else StatusOK.
Proof.
  unfold finishRequest, WriteHeader. destruct (wroteHeader w); reflexivity.
Qed.

(** *** Start-up *)

Lemma loadItems_getwd_fails (os : OS) (g : Globals) (e : string) :
  os_Getwd os = Err e -> exists msg, loadItems os g = Exited 1 msg.
Proof. intros H. unfold loadItems. rewrite H. eexists. reflexivity. Qed.

Lemma loadItems_open_fails (os : OS) (g : Globals) (dir e : string) :
  os_Getwd os = Ok dir ->
  os_Open os (filepath_Join [dir; "static"; "data"; "items.json"]) = Err e ->
  exists msg, loadItems os g = Exited 1 msg.
Proof.
  intros Hd Ho. unfold loadItems. rewrite Hd, Ho. eexists. reflexivity.
Qed.

Lemma loadItems_decode_fails (os : OS) (g : Globals) (dir f e : string) :
  os_Getwd os = Ok dir ->
  os_Open os (filepath_Join [dir; "static"; "data"; "items.json"]) = Ok f ->
  json_Decode os f = Err e ->
  exists msg, loadItems os g = Exited 1 msg.
Proof.
  intros Hd Ho Hj. unfold loadItems. rewrite Hd, Ho, Hj.
  eexists. reflexivity.
Qed.

Lemma loadItems_cases (os : OS) (g : Globals) :
  (exists msg, loadItems os g = Exited 1 msg)
  \/ (exists l, loadItems os g
                = Done tt {| items := l; tmpl := tmpl g;
                             DefaultServeMux := DefaultServeMux g |}).
Proof.
  unfold loadItems.
  destruct (os_Getwd os) as [dir|e]; [|left; eexists; reflexivity].
  destruct (os_Open os _) as [f|e]; [|left; eexists; reflexivity].
  destruct (json_Decode os f) as [l|e]; [|left; eexists; reflexivity].
  right. exists l. reflexivity.
Qed.

(** A failed load or a failed parse ends the process with exit code 1,
    before any route is registered. *)
Lemma main_load_fails (os : OS) (g : Globals) (msg : string) :
  loadItems os g = Exited 1 msg -> main os g = Exited 1 msg.
Proof. intros H. unfold main, bind. rewrite H. reflexivity. Qed.

Lemma main_parse_fails (os : OS) (g : Globals) (e : string) :
  template_ParseFiles os templateFiles = Err e ->
  exists msg, main os g = Exited 1 msg.
Proof.
  intros Hp. unfold main, bind.
  destruct (loadItems_cases os g) as [[msg H] | [l H]]; rewrite H.
  - eexists. reflexivity.
  - fold templateFiles. rewrite Hp. eexists. reflexivity.
Qed.

Lemma main_serving (os : OS) (g : Globals) (u : unit) (g' : Globals) :
  main os g = Done u g' ->
  DefaultServeMux g = emptyMux ->
  (exists t, tmpl g' = Some t /\ template_ParseFiles os templateFiles = Ok t)
  /\ DefaultServeMux g' = routes
  /\ loadItems os g
     = Done tt {| items := items g'; tmpl := tmpl g;
                  DefaultServeMux := DefaultServeMux g |}.
Proof.
  intros Hmain Hmux. unfold main, bind in Hmain.
  destruct (loadItems_cases os g) as [[msg H] | [l H]]; rewrite H in Hmain.
  - discriminate.
  - fold templateFiles in Hmain.
    destruct (template_ParseFiles os templateFiles) as [t|e]; [|discriminate].
    unfold http_Handle, setGlobals in Hmain; simpl in Hmain.
    destruct (net_Listen os "tcp4" ":8080"); [|discriminate].
    unfold ret in Hmain. injection Hmain as _ Hg. subst g'. simpl.
    split; [|split].
    + exists t. split; reflexivity.
    + rewrite Hmux. reflexivity.
    + exact H.
Qed.

(** *** The home handler *)

Lemma homeHandler_runs (w : ResponseWriter) (r : Request)
    (g : Globals) (t : Template) :
  tmpl g = Some t ->
  homeHandler w r g
  = Done (match snd (t "home.html" (homeData g)) with
          | Some e =>
              http_Error (writeAll (fst (t "home.html" (homeData g))) w) e
                StatusInternalServerError
          | None => writeAll (fst (t "home.html" (homeData g))) w
          end) g.
Proof.
  intros Ht.
  unfold homeHandler, tmpl_ExecuteTemplate, bind, getGlobals, ret,
    Template_ExecuteTemplate.
  rewrite Ht. fold (homeData g).
  destruct (t "home.html" (homeData g)) as [chunks [e|]]; reflexivity.
Qed.

(** The status a failed execution ends with: 500 only when the template
    had written nothing. *)
Lemma homeHandler_failure_status (r : Request) (g : Globals)
    (t : Template) (chunks : list string) (e : string) :
  tmpl g = Some t ->
  t "home.html" (homeData g) = (chunks, Some e) ->
  exists w,
    homeHandler newResponse r g = Done w g
    /\ status (finishRequest w)
       = match chunks with
         | [] => StatusInternalServerError
         | _ :: _ => StatusOK
         end.
Proof.
  intros Ht Hexec. rewrite (homeHandler_runs newResponse r g t Ht), Hexec.
  cbn [fst snd]. eexists. split; [reflexivity|].
  rewrite finishRequest_status.
  destruct (http_Error_status (writeAll chunks newResponse) e
              StatusInternalServerError) as [Hw Hs].
  rewrite Hw, Hs.
  destruct chunks as [|c chunks]; [reflexivity|].
  destruct (writeAll_fresh c chunks newResponse eq_refl) as [Hw' Hs'].
  rewrite Hw'. exact Hs'.
Qed.


(** C9, at the failing input.  With a [home.html] that fails after it
    wrote its opening tag, the request to the root path is answered with
    status 200, the partial page and the error text, not with a 500: the
    status line went out with the template's first write.  The process
    goes on and the catalog is as loaded.  A [home.html] that fails
    before its first write does get the 500. *)
Theorem C9_execution_failure_after_output_answers_200 :
  responseStatus (startAndServe (sampleOS failsMidway) (GET "/")) = Some 200
  /\ responseBody (startAndServe (sampleOS failsMidway) (GET "/"))
     = Some ("<html>" ++ "error calling index: index out of range: 99"
             ++ newline)
  /\ catalogAfter (startAndServe (sampleOS failsMidway) (GET "/"))
     = Some [sampleItem]
  /\ responseStatus (startAndServe (sampleOS failsAtOnce) (GET "/"))
     = Some 500.
Proof. repeat split. Qed.

End ServerSpec.

(* ================================================================== *)
(** ** The content server: routing *)
(* ================================================================== *)

Module Routing.
Import Server ServerSpec.
Open Scope string_scope.

Lemma routes_m :
  mux_m routes
  = [("/non", Non); ("/tou", Tou); ("/privacy", Privacy);
     ("/main.js", MainJs); ("/styles.css", StylesCss);
     ("/static/", StaticFiles); ("/", HomeHandler)].
Proof. reflexivity. Qed.

Lemma routes_es :
  mux_es routes = [("/static/", StaticFiles); ("/", HomeHandler)].
Proof. reflexivity. Qed.

Lemma lookup_cons (path : string) (e : muxEntry) (m : list muxEntry) :
  lookup path (e :: m)
  = if String.eqb (fst e) path then Some e else lookup path m.
Proof. reflexivity. Qed.

Lemma firstPrefix_cons (path : string) (e : muxEntry) (es : list muxEntry) :
  firstPrefix path (e :: es)
  = if String.prefix (fst e) path then Some e else firstPrefix path es.
Proof. reflexivity. Qed.

Lemma lastIsSlash_append_slash (p : string) : lastIsSlash (p ++ "/") = true.
Proof.
  induction p as [|c p IH]; [reflexivity|].
  simpl. destruct (p ++ "/") eqn:E.
  - destruct p; discriminate.
  - exact IH.
Qed.

Lemma append_slash_inj (p q : string) : p ++ "/" = q ++ "/" -> p = q.
Proof.
  revert q. induction p as [|c p IH]; intros [|d q] H; simpl in H.
  - reflexivity.
  - injection H as _ H. destruct q; discriminate.
  - injection H as _ H. destruct p; discriminate.
  - injection H as Hc H. f_equal; [exact Hc | apply IH; exact H].
Qed.

Lemma eqb_false_by_last (a b : string) :
  lastIsSlash a = false -> lastIsSlash b = true -> String.eqb a b = false.
Proof.
  intros Ha Hb. apply String.eqb_neq. intros ->. congruence.
Qed.






(** The only trailing-slash redirect of this mux is [/static]. *)
Lemma shouldRedirect_routes (path : string) :
  path <> "/static" -> shouldRedirect routes path = false.
Proof.
  intros Hns. unfold shouldRedirect.
  destruct (lookup path (mux_m routes)); [reflexivity|].
  destruct path as [|c path]; [reflexivity|].
  set (p := String c path) in *.
  assert (Hlast : lastIsSlash (p ++ "/") = true)
    by apply lastIsSlash_append_slash.
  rewrite routes_m, !lookup_cons. cbn [fst lookup].
  rewrite (eqb_false_by_last "/non" _ eq_refl Hlast),
    (eqb_false_by_last "/tou" _ eq_refl Hlast),
    (eqb_false_by_last "/privacy" _ eq_refl Hlast),
    (eqb_false_by_last "/main.js" _ eq_refl Hlast),
    (eqb_false_by_last "/styles.css" _ eq_refl Hlast).
  assert (Hstatic : String.eqb "/static/" (p ++ "/") = false).
  { apply String.eqb_neq. intros Heq. apply Hns.
    apply append_slash_inj. symmetry. exact Heq. }
  assert (Hroot : String.eqb "/" (p ++ "/") = false).
  { apply String.eqb_neq. intros Heq.
    assert (Hp : p = "") by (apply append_slash_inj; symmetry; exact Heq).
    discriminate Hp. }
  rewrite Hstatic, Hroot. reflexivity.
Qed.








End Routing.

(* ================================================================== *)
(** ** The shape of the two ramps *)
(* ================================================================== *)

Module RampShape.
Import GLSL Shaders GLSLFacts.
Open Scope R_scope.

Lemma hermite_zero_only_at_0 (t : R) :
  0 <= t <= 1 -> hermite t = 0 -> t = 0.
Proof.
  intros [H0 H1] Hh. unfold hermite in Hh.
  assert (Hsq : t * t = 0).
  { destruct (Rmult_integral _ _ Hh) as [Hz | Hz]; [exact Hz | lra]. }
  destruct (Rmult_integral _ _ Hsq); assumption.
Qed.

Lemma clamp01_zero_only_below (v : R) : clamp v 0 1 = 0 -> v <= 0.
Proof.
  unfold clamp, Rmin, Rmax.
  repeat (destruct (Rle_dec _ _)); lra.
Qed.

Section ReversedEdges.

Variable e : R.
Hypothesis e_pos : 0 < e.

Lemma ramp_nonpos_iff (v : R) : (v - e) / (0 - e) <= 0 <-> e <= v.
Proof.
  rewrite (ramp_reversed e e_pos).
  assert (Hinv : 0 < / e) by (apply Rinv_0_lt_compat; exact e_pos).
  unfold Rdiv. split; intros H.
  - assert (Hm : 1 * e <= v * / e * e)
      by (apply Rmult_le_compat_r; lra).
    rewrite Rmult_assoc, Rinv_l in Hm by lra. lra.
  - assert (Hm : e * / e <= v * / e)
      by (apply Rmult_le_compat_r; lra).
    rewrite Rinv_r in Hm by lra. lra.
Qed.

Lemma smoothstep_rev_zero_iff (v : R) : smoothstep e 0 v = 0 <-> e <= v.
Proof.
  split.
  - intros H. unfold smoothstep in H.
    apply hermite_zero_only_at_0 in H; [|apply clamp01_range].
    apply ramp_nonpos_iff. apply clamp01_zero_only_below. exact H.
  - apply smoothstep_rev_beyond. exact e_pos.
Qed.

Lemma smoothstep_rev_positive_inside (v : R) :
  v < e -> 0 < smoothstep e 0 v <= 1.
Proof.
  intros Hv.
  pose proof (smoothstep_rev_range e v) as [Hlo Hhi].
  split; [|exact Hhi].
  destruct Hlo as [Hlt | Heq]; [exact Hlt|].
  symmetry in Heq. apply smoothstep_rev_zero_iff in Heq. lra.
Qed.

End ReversedEdges.

Lemma radius_positive : 0 < radius.
Proof. unfold radius. lra. Qed.

(** X1.  The brush reaches exactly the points closer to the pointer
    than the radius: its strength is 0 exactly where the
    aspect-corrected distance is 0.2 or more and positive (at most 1)
    at every smaller distance; at the far points, and whenever the
    pointer velocity is zero, the contribution is the zero vector. *)
Theorem brush_support_is_open_disc :
  forall (u : UpdateUniforms) (vUv : vec2),
    (strength u vUv = 0 <-> 0.2 <= dist u vUv)
    /\ (dist u vUv < 0.2 -> 0 < strength u vUv <= 1)
    /\ (0.2 <= dist u vUv \/ uMouseVelocity u = vzero ->
        brush u vUv = vzero).
Proof.
  intros u vUv.
  pose proof (smoothstep_rev_zero_iff radius radius_positive (dist u vUv))
    as H0.
  fold (falloff (dist u vUv)) in H0. fold (strength u vUv) in H0.
  split; [exact H0|]. split.
  - apply (smoothstep_rev_positive_inside radius radius_positive).
  - intros [Hfar | Hstill].
    + apply H0 in Hfar. unfold brush. rewrite Hfar.
      unfold vscale, vzero; simpl. f_equal; ring.
    + unfold brush. rewrite Hstill.
      unfold vscale, vzero; simpl. f_equal; ring.
Qed.

End RampShape.

(* ================================================================== *)
(** ** Bounds on the field and on the composite *)
(* ================================================================== *)

Module Bounds.
Import GLSL Shaders Colors GLSLFacts.
Open Scope R_scope.

Lemma weighted_within (v w m : R) :
  - m <= v <= m -> 0 <= w <= 1 -> - m <= v * w <= m.
Proof.
  intros [Hlo Hhi] [H0 H1].
  assert (0 <= (m - v) * w) by (apply Rmult_le_pos; lra).
  assert (0 <= (m + v) * w) by (apply Rmult_le_pos; lra).
  assert (0 <= (m - v) * (1 - w)) by (apply Rmult_le_pos; lra).
  assert (0 <= (m + v) * (1 - w)) by (apply Rmult_le_pos; lra).
  split; lra.
Qed.

Lemma updatePass_within (q : PointerUniforms) (f : sampler2D) (p : vec2)
    (m : R) :
  - m <= vx (pMouseVelocity q) <= m ->
  - m <= vy (pMouseVelocity q) <= m ->
  within (50 * m) (f p) ->
  within (50 * m) (updatePass q f p).
Proof.
  intros Hvx Hvy [Hr Hg].
  set (u := {| uLastFrame := f; uMousePos := pMousePos q;
               uMouseVelocity := pMouseVelocity q;
               uResolution := pResolution q |}).
  assert (Hs : 0 <= strength u p <= 1) by apply smoothstep_rev_range.
  pose proof (weighted_within _ _ _ Hvx Hs) as Hwx.
  pose proof (weighted_within _ _ _ Hvy Hs) as Hwy.
  unfold within, updatePass, displacementUpdate, brush, rg_add, vscale4,
    vscale, texture2D, damping, gain; simpl.
  fold u. split; lra.
Qed.

(** X3.  The field has no clamp, yet it cannot run away: while both
    components of the pointer velocity stay within [m] of zero in every
    frame, a field whose two displacement components start within
    [50 * m] of zero keeps them there, at every point and after every
    number of update passes (50 is 2.5 / (1 - 0.95)). *)
Theorem field_stays_within_fifty_times_the_velocity :
  forall (ps : nat -> PointerUniforms) (field0 : sampler2D) (m : R),
    (forall n, - m <= vx (pMouseVelocity (ps n)) <= m
               /\ - m <= vy (pMouseVelocity (ps n)) <= m) ->
    (forall p, within (50 * m) (field0 p)) ->
    forall (n : nat) (p : vec2), within (50 * m) (fieldAt ps field0 n p).
Proof.
  intros ps field0 m Hvel Hstart n.
  induction n as [|n IH]; intros p.
  - apply Hstart.
  - simpl. destruct (Hvel n) as [Hvx Hvy].
    apply updatePass_within; [exact Hvx | exact Hvy | apply IH].
Qed.

(** The theorem for a pointer at rest over a field that holds
    (1, 1, 0, 0), with [m = 1]. *)
Lemma field_stays_within_witness :
  within (50 * 1) (fieldAt stillPointer (constField (Vec4 1 1 0 0)) 3
                     (Vec2 0 0)).
Proof.
  apply (field_stays_within_fifty_times_the_velocity
           stillPointer (constField (Vec4 1 1 0 0)) 1).
  - intros n. simpl. lra.
  - intros p. unfold within, constField; simpl. lra.
Defined.

Lemma mix_unit (x y a : R) :
  0 <= x <= 1 -> 0 <= y <= 1 -> 0 <= a <= 1 -> 0 <= mix x y a <= 1.
Proof.
  intros [Hx0 Hx1] [Hy0 Hy1] [Ha0 Ha1]. unfold mix.
  assert (0 <= x * (1 - a)) by (apply Rmult_le_pos; lra).
  assert (0 <= y * a) by (apply Rmult_le_pos; lra).
  assert (0 <= (1 - x) * (1 - a)) by (apply Rmult_le_pos; lra).
  assert (0 <= (1 - y) * a) by (apply Rmult_le_pos; lra).
  split; lra.
Qed.

(** X4.  The composite never leaves the displayable range: when every
    channel of both background images lies in [0, 1], so does every
    channel of the output, at every screen position and for every
    displacement field. *)
Theorem composite_output_is_displayable :
  forall (u : RenderUniforms),
    (forall p, displayable (uTopTexture u p)) ->
    (forall p, displayable (uBottomTexture u p)) ->
    forall (vUv : vec2), displayable (finalRender u vUv).
Proof.
  intros u Htop Hbottom vUv.
  destruct (Htop (topUV u vUv)) as (Htr & Htg & Htb & _).
  destruct (Hbottom (bottomUV u vUv)) as (Hbr & Hbg & Hbb & Hba).
  assert (Ha : 0 <= opacity (displacementAmount u vUv) <= 1)
    by apply smoothstep_rev_range.
  unfold displayable, finalRender, mix4, topColor, bottomColor, set_a,
    rgb_mul, texture2D, shade; simpl.
  repeat split; apply mix_unit; try assumption; lra.
Qed.

(** The theorem on the red and blue sample images at displacement
    (0.03, 0.04). *)
Lemma composite_output_witness :
  displayable (finalRender (sampleRender (Vec2 0.03 0.04)) (Vec2 0.5 0.5)).
Proof.
  apply (composite_output_is_displayable (sampleRender (Vec2 0.03 0.04))).
  - intros p. unfold displayable, sampleRender, constField; simpl. lra.
  - intros p. unfold displayable, sampleRender, constField; simpl. lra.
Defined.

(** X5.  The top layer vanishes exactly at the threshold: its
    opacity is 0 exactly where the displacement magnitude is 0.1 or
    more, and positive (at most 1) at every smaller magnitude, so
    below the threshold the top image always shows through; where the
    first two components of the field are zero it is 1. *)
Theorem top_layer_vanishes_exactly_at_the_threshold :
  forall (u : RenderUniforms) (vUv : vec2),
    (ca (topColor u vUv) = 0 <-> 0.1 <= displacementAmount u vUv)
    /\ (displacementAmount u vUv < 0.1 -> 0 < ca (topColor u vUv) <= 1)
    /\ (rg (uDisplacementMap u vUv) = vzero -> ca (topColor u vUv) = 1).
Proof.
  intros u vUv.
  assert (Ht : 0 < threshold) by (unfold threshold; lra).
  change (ca (topColor u vUv))
    with (smoothstep threshold 0 (displacementAmount u vUv)).
  split; [|split].
  - apply (RampShape.smoothstep_rev_zero_iff threshold Ht).
  - apply (RampShape.smoothstep_rev_positive_inside threshold Ht).
  - intros Hz.
    rewrite (CompositePass.displacementAmount_zero u vUv Hz).
    apply smoothstep_rev_at_0. exact Ht.
Qed.

End Bounds.

(* ================================================================== *)
(** ** Pointer input and idle frames *)
(* ================================================================== *)

Module FrameRunsSpec.
Import GLSL Shaders FrameLoop FrameRuns FrameLoopSpec GLSLFacts.
Open Scope R_scope.

Lemma ratio_in_unit (a w : R) : 0 < w -> 0 <= a <= w -> 0 <= a / w <= 1.
Proof.
  intros Hw [H0 H1].
  assert (Hinv : 0 < / w) by (apply Rinv_0_lt_compat; exact Hw).
  unfold Rdiv. split.
  - apply Rmult_le_pos; lra.
  - assert (Hm : a * / w <= w * / w)
      by (apply Rmult_le_compat_r; lra).
    rewrite Rinv_r in Hm by lra. exact Hm.
Qed.

Lemma pointerAt_stored (rect : DOMRect) (event : ClientPoint) (s : State) :
  pointer (exec (updateMousePosition rect event) s)
  = {| mouse := pointerAt rect event;
       lastMouse := lastMouse (pointer s);
       mouseVelocity := mouseVelocity (pointer s) |}.
Proof. reflexivity. Qed.

(** X6.  A pointer event on a canvas of positive size is stored as a
    position in the unit square, with the vertical axis turned
    upwards: the left edge gives x = 0, the right edge x = 1, the top
    edge y = 1 and the bottom edge y = 0. *)
Theorem pointer_on_canvas_is_normalised :
  forall (rect : DOMRect) (event : ClientPoint) (s : State),
    inside rect event ->
    let m := mouse (pointer (exec (updateMousePosition rect event) s)) in
    0 <= vx m <= 1
    /\ 0 <= vy m <= 1
    /\ (clientX event = rect_left rect -> vx m = 0)
    /\ (clientX event = rect_left rect + rect_width rect -> vx m = 1)
    /\ (clientY event = rect_top rect -> vy m = 1)
    /\ (clientY event = rect_top rect + rect_height rect -> vy m = 0).
Proof.
  intros rect event s (Hw & Hh & Hx & Hy) m.
  subst m. rewrite pointerAt_stored. unfold pointerAt; simpl.
  assert (Hrx : 0 <= (clientX event - rect_left rect) / rect_width rect <= 1)
    by (apply ratio_in_unit; lra).
  assert (Hry : 0 <= (clientY event - rect_top rect) / rect_height rect <= 1)
    by (apply ratio_in_unit; lra).
  split; [exact Hrx|]. split; [lra|].
  split; [|split; [|split]]; intros ->.
  - replace (rect_left rect - rect_left rect) with 0 by ring.
    unfold Rdiv. ring.
  - replace (rect_left rect + rect_width rect - rect_left rect)
      with (rect_width rect) by ring.
    unfold Rdiv. rewrite Rinv_r by lra. reflexivity.
  - replace (rect_top rect - rect_top rect) with 0 by ring.
    unfold Rdiv. ring.
  - replace (rect_top rect + rect_height rect - rect_top rect)
      with (rect_height rect) by ring.
    unfold Rdiv. rewrite Rinv_r by lra. ring.
Qed.

(** The theorem for a click at (400, 150) on an 800 by 600 canvas. *)
Lemma pointer_on_canvas_witness :
  inside sampleRect samplePoint
  /\ 0 <= vy (mouse (pointer (exec (updateMousePosition sampleRect samplePoint)
                               (initial 800 600 blankGpu)))) <= 1.
Proof.
  assert (Hin : inside sampleRect samplePoint)
    by (unfold inside, sampleRect, samplePoint; simpl; lra).
  split; [exact Hin|].
  exact (proj1 (proj2
    (pointer_on_canvas_is_normalised sampleRect samplePoint
       (initial 800 600 blankGpu) Hin))).
Defined.

Section Runs.

Variables topTexture bottomTexture : sampler2D.

Local Abbreviation handle := (handle topTexture bottomTexture).
Local Abbreviation animate := (animate topTexture bottomTexture).
Local Abbreviation reachable := (reachable topTexture bottomTexture).
Local Abbreviation runInputs := (runInputs topTexture bottomTexture).
Local Abbreviation frames := (frames topTexture bottomTexture).

(** What [animate] does to the pointer vectors, in any state. *)
Lemma animate_pointer (s : State) :
  pointer (exec animate s)
  = {| mouse := mouse (pointer s); lastMouse := mouse (pointer s);
       mouseVelocity := vsub (mouse (pointer s)) (lastMouse (pointer s)) |}.
Proof.
  destruct s as [[m lm mv] b res [mat rt] g].
  reflexivity.
Qed.

Lemma runInputs_app (xs ys : list Input) (s : State) :
  runInputs (xs ++ ys) s = runInputs ys (runInputs xs s).
Proof. unfold FrameRuns.runInputs. apply fold_left_app. Qed.

(** Mouse moves leave everything but [mouse] as it was. *)
Lemma mouse_moves_keep (moves : list (DOMRect * ClientPoint)) :
  forall s,
    let s' := runInputs (map (fun m => MouseMove (fst m) (snd m)) moves) s in
    lastMouse (pointer s') = lastMouse (pointer s)
    /\ mouseVelocity (pointer s') = mouseVelocity (pointer s)
    /\ buffers s' = buffers s
    /\ resolution s' = resolution s
    /\ renderer s' = renderer s
    /\ gpu s' = gpu s.
Proof.
  induction moves as [|[rect ev] moves IH]; intros s.
  - simpl. repeat split.
  - simpl. specialize (IH (exec (handle (MouseMove rect ev)) s)).
    simpl in IH. exact IH.
Qed.

Lemma mouse_move_forgets (rect : DOMRect) (event : ClientPoint)
    (s1 s : State) :
  lastMouse (pointer s1) = lastMouse (pointer s) ->
  mouseVelocity (pointer s1) = mouseVelocity (pointer s) ->
  buffers s1 = buffers s ->
  resolution s1 = resolution s ->
  renderer s1 = renderer s ->
  gpu s1 = gpu s ->
  exec (handle (MouseMove rect event)) s1
  = exec (handle (MouseMove rect event)) s.
Proof.
  destruct s1 as [[m1 lm1 mv1] b1 res1 r1 g1].
  destruct s as [[m lm mv] b res r g]. simpl.
  intros -> -> -> -> -> ->. reflexivity.
Qed.

(** X7.  The last pointer event before a frame wins: however many mouse
    moves arrive between two frames, the frame sets the velocity to the
    position of the last one minus the sample of the frame before; the
    earlier moves leave no trace, in the velocity or anywhere else. *)
Theorem last_mouse_move_before_a_frame_wins :
  forall (moves : list (DOMRect * ClientPoint)) (rect : DOMRect)
         (event : ClientPoint) (s : State),
    let inputs :=
      map (fun m => MouseMove (fst m) (snd m)) (moves ++ [(rect, event)]) in
    pointer (exec animate (runInputs inputs s))
    = {| mouse := pointerAt rect event;
         lastMouse := pointerAt rect event;
         mouseVelocity := vsub (pointerAt rect event)
                               (lastMouse (pointer s)) |}
    /\ exec animate (runInputs inputs s)
       = exec animate (exec (handle (MouseMove rect event)) s).
Proof.
  intros moves rect event s inputs. subst inputs.
  rewrite map_app, runInputs_app.
  destruct (mouse_moves_keep moves s) as (Hlm & Hmv & Hb & Hres & Hr & Hg).
  assert (Hsame :
            runInputs (map (fun m => MouseMove (fst m) (snd m))
                         [(rect, event)])
              (runInputs (map (fun m => MouseMove (fst m) (snd m)) moves) s)
            = exec (handle (MouseMove rect event)) s)
    by (apply (mouse_move_forgets rect event _ s Hlm Hmv Hb Hres Hr Hg)).
  rewrite Hsame. split; [|reflexivity].
  rewrite animate_pointer.
  change (handle (MouseMove rect event))
    with (updateMousePosition rect event).
  rewrite pointerAt_stored. reflexivity.
Qed.

Lemma animate_settles (s : State) :
  consistent (buffers s) -> settled (exec animate s).
Proof.
  intros Hc. split.
  - apply (handle_consistent topTexture bottomTexture Frame s Hc).
  - rewrite animate_pointer. reflexivity.
Qed.

Lemma still_update (f : sampler2D) (m res : vec2) (uv : vec2) :
  displacementUpdate
    {| uLastFrame := f; uMousePos := m; uMouseVelocity := vsub m m;
       uResolution := res |} uv
  = vscale4 (f uv) 0.95.
Proof.
  unfold displacementUpdate, brush, rg_add, vscale4, vscale, vsub,
    texture2D, damping; simpl.
  f_equal; ring.
Qed.

(** One frame from a settled state: the field it writes is the field
    of the frame before times 0.95, and the state is settled again. *)
Lemma idle_frame (s : State) :
  settled s ->
  settled (exec animate s)
  /\ (forall uv, latestField (exec animate s) uv
                 = vscale4 (latestField s uv) 0.95)
  /\ canvas (gpu (exec animate s))
     = finalRender {| uDisplacementMap := latestField (exec animate s);
                      uTopTexture := topTexture;
                      uBottomTexture := bottomTexture |}
  /\ texture (gpu (exec animate s))
       (currentRenderTarget (buffers (exec animate s)))
     = latestField s.
Proof.
  intros [Hc Hlm].
  pose proof (animate_frame topTexture bottomTexture s Hc) as H.
  cbv zeta in H. destruct H as (_ & _ & Hcur & Hprev & Hcanvas).
  assert (Hlatest : latestField (exec animate s)
                    = texture (gpu (exec animate s))
                        (currentRenderTarget (buffers s))).
  { unfold latestField. rewrite animate_buffers. reflexivity. }
  split; [apply animate_settles; exact Hc|].
  split; [|split].
  - intros uv. rewrite Hlatest, Hcur, Hlm. apply still_update.
  - rewrite Hcanvas, Hlatest, Hcur. reflexivity.
  - rewrite animate_buffers. simpl. exact Hprev.
Qed.

Lemma frames_settled (k : nat) (s : State) :
  settled s -> settled (frames k s).
Proof.
  intros Hs. induction k as [|k IH]; [exact Hs|].
  simpl. apply idle_frame. exact IH.
Qed.

Lemma vscale4_twice (c : vec4) (a b : R) :
  vscale4 (vscale4 c a) b = vscale4 c (b * a).
Proof. unfold vscale4; simpl. f_equal; ring. Qed.

(** X8.  While no pointer input arrives the loop only decays the field:
    [k] frames after any frame, the field is, at every point and in all
    four components, the field of that frame times 0.95 to the power
    [k], wherever the pointer rests. *)
Theorem idle_frames_decay_the_field :
  forall (s : State) (k : nat) (uv : vec2),
    reachable s ->
    latestField (frames k (exec animate s)) uv
    = vscale4 (latestField (exec animate s) uv) (0.95 ^ k).
Proof.
  intros s k uv Hreach.
  pose proof (reachable_consistent topTexture bottomTexture s Hreach) as Hc.
  pose proof (animate_settles s Hc) as Hs.
  induction k as [|k IH].
  - simpl. unfold vscale4. destruct (latestField (exec animate s) uv).
    simpl. f_equal; ring.
  - simpl frames.
    destruct (idle_frame (frames k (exec animate s))
                (frames_settled k _ Hs)) as (_ & Hstep & _).
    rewrite Hstep, IH, vscale4_twice. reflexivity.
Qed.

Lemma frames_from_initial (k : nat) (w h : R) (g : Gpu) :
  settled (frames k (initial w h g))
  /\ mouse (pointer (frames k (initial w h g))) = Vec2 (-1) (-1).
Proof.
  induction k as [|k [IHs IHm]].
  - split; [split|]; [apply initial_consistent | reflexivity | reflexivity].
  - simpl frames. split.
    + apply idle_frame. exact IHs.
    + rewrite animate_pointer. simpl. exact IHm.
Qed.

(** X9.  The first pointer event comes with a jump.  The pointer vectors
    start at (-1, -1), outside the canvas, so after any number of
    frames without input the first mouse move on the canvas makes the
    next frame see a velocity of the new position plus (1, 1): at least
    1 in either component, however little the pointer moved. *)
Theorem first_mouse_move_jumps_from_outside :
  forall (k : nat) (w h : R) (g : Gpu) (rect : DOMRect) (event : ClientPoint),
    inside rect event ->
    let s := exec animate
               (exec (handle (MouseMove rect event))
                  (frames k (initial w h g))) in
    mouseVelocity (pointer s) = vadd (pointerAt rect event) (Vec2 1 1)
    /\ 1 <= vx (mouseVelocity (pointer s)) <= 2
    /\ 1 <= vy (mouseVelocity (pointer s)) <= 2.
Proof.
  intros k w h g rect event Hin s.
  destruct (frames_from_initial k w h g) as [[_ Hlm] Hm].
  assert (Hv : mouseVelocity (pointer s) = vadd (pointerAt rect event)
                                                (Vec2 1 1)).
  { subst s. rewrite animate_pointer.
    change (handle (MouseMove rect event))
      with (updateMousePosition rect event).
    rewrite pointerAt_stored. simpl. rewrite Hlm, Hm.
    unfold vsub, vadd; simpl. f_equal; ring. }
  split; [exact Hv|]. rewrite Hv.
  destruct Hin as (Hw & Hh & Hx & Hy).
  assert (Hrx : 0 <= (clientX event - rect_left rect) / rect_width rect <= 1)
    by (apply ratio_in_unit; lra).
  assert (Hry : 0 <= (clientY event - rect_top rect) / rect_height rect <= 1)
    by (apply ratio_in_unit; lra).
  unfold vadd, pointerAt; simpl. split; lra.
Qed.

Lemma flat_decays (f : sampler2D) :
  flat f -> flat (fun uv => vscale4 (f uv) 0.95).
Proof.
  intros Hf p. specialize (Hf p).
  unfold rg, vscale4, vzero in *; simpl.
  injection Hf as Hr Hg. rewrite Hr, Hg. f_equal; ring.
Qed.

Lemma finalRender_on_still_water (u : RenderUniforms) (uv : vec2) :
  rg (uDisplacementMap u uv) = vzero ->
  finalRender u uv = set_a (uTopTexture u uv) 1.
Proof.
  intros Hz.
  assert (Hd : displacement u uv = vzero) by exact Hz.
  unfold finalRender, topColor, topUV.
  rewrite (CompositePass.displacementAmount_zero u uv Hd), Hd,
    CompositePass.vadd_vzero, CompositePass.opacity_at_0.
  simpl. apply CompositePass.mix4_at_1.
Qed.

(** X10.  With both render targets holding no displacement at the start and
    no pointer or resize input, the page shows the top image and
    nothing else: after every positive number of frames the canvas is,
    at every position, the top image's sample there with alpha 1. *)
Theorem untouched_page_shows_the_top_image :
  forall (k : nat) (w h : R) (g : Gpu) (uv : vec2),
    (forall t, flat (texture g t)) ->
    canvas (gpu (frames (S k) (initial w h g))) uv
    = set_a (topTexture uv) 1.
Proof.
  intros k w h g uv Hflat.
  assert (Hinv : forall n,
             settled (frames n (initial w h g))
             /\ flat (latestField (frames n (initial w h g)))
             /\ flat (texture (gpu (frames n (initial w h g)))
                        (currentRenderTarget
                           (buffers (frames n (initial w h g)))))).
  { induction n as [|n (IHs & IHl & IHc)].
    - split; [apply frames_from_initial|]. split; apply Hflat.
    - simpl frames.
      destruct (idle_frame _ IHs) as (Hs' & Hstep & _ & Hcur').
      split; [exact Hs'|]. split.
      + intros p. rewrite Hstep. apply (flat_decays _ IHl p).
      + rewrite Hcur'. exact IHl. }
  destruct (Hinv k) as (Hs & _ & _).
  destruct (Hinv (S k)) as (_ & Hl & _).
  simpl frames in *.
  destruct (idle_frame _ Hs) as (_ & _ & Hcanvas & _).
  rewrite Hcanvas.
  apply finalRender_on_still_water. simpl. apply Hl.
Qed.

End Runs.

(** The theorem on blank render targets, after three frames. *)
Lemma untouched_page_witness :
  canvas (gpu (frames redImage blueImage 3 (initial 800 600 blankGpu)))
    (Vec2 0.5 0.5)
  = Vec4 1 0 0 1.
Proof.
  apply (untouched_page_shows_the_top_image redImage blueImage 2 800 600
           blankGpu (Vec2 0.5 0.5)).
  intros t p. reflexivity.
Defined.

(** The theorem after one frame from the state [init] builds. *)
Lemma idle_frames_witness :
  latestField (frames redImage blueImage 2
                 (exec (animate redImage blueImage)
                    (initial 800 600 blankGpu))) (Vec2 0.5 0.5)
  = vscale4 (latestField (exec (animate redImage blueImage)
                            (initial 800 600 blankGpu)) (Vec2 0.5 0.5))
      (0.95 ^ 2).
Proof.
  apply (idle_frames_decay_the_field redImage blueImage
           (initial 800 600 blankGpu) 2 (Vec2 0.5 0.5)).
  apply reach_init.
Defined.

(** The theorem for the first click, at (400, 150) on an 800 by 600
    canvas, before any frame. *)
Lemma first_mouse_move_witness :
  mouseVelocity
    (pointer (exec (animate redImage blueImage)
                (exec (handle redImage blueImage
                         (MouseMove sampleRect samplePoint))
                   (frames redImage blueImage 0
                      (initial 800 600 blankGpu)))))
  = vadd (pointerAt sampleRect samplePoint) (Vec2 1 1).
Proof.
  assert (Hin : inside sampleRect samplePoint)
    by (unfold inside, sampleRect, samplePoint; simpl; lra).
  exact (proj1 (first_mouse_move_jumps_from_outside redImage blueImage
                  0 800 600 blankGpu sampleRect samplePoint Hin)).
Defined.

End FrameRunsSpec.

(* ================================================================== *)
(** ** The fixed header *)
(* ================================================================== *)

Module PageSpec.
Import Page.
Open Scope R_scope.

Lemma gtb_true_iff (a b : R) : gtb a b = true <-> b < a.
Proof.
  unfold gtb. destruct (Rlt_dec b a) as [H | H]; split; intros H';
    try assumption; try reflexivity; try discriminate; contradiction.
Qed.

Lemma updateHeader_hidden (e : ScrollEvent) (h : HeaderState) :
  hidden (updateHeader e h) = true
  <-> lastScrollY h < scrollY e /\ offsetHeight e < scrollY e.
Proof.
  unfold updateHeader; simpl.
  rewrite <- !gtb_true_iff.
  destruct (gtb (scrollY e) (lastScrollY h)),
    (gtb (scrollY e) (offsetHeight e)); simpl; split;
    try (intros [? ?]); try discriminate; auto.
Qed.

Lemma scrollAll_snoc (events : list ScrollEvent) (e : ScrollEvent)
    (h : HeaderState) :
  scrollAll (events ++ [e]) h = updateHeader e (scrollAll events h).
Proof. unfold scrollAll. rewrite fold_left_app. reflexivity. Qed.

(** X11.  After any run of scroll events the header's state is decided by
    the last two positions alone: it is hidden exactly when the last
    event scrolled down (its position is greater than the one before)
    to a position beyond the header's own height.  So scrolling up, an
    event that does not move the page, and every position within the
    header's height all show the header, whatever came before. *)
Theorem header_hidden_only_when_scrolling_down_past_it :
  forall (h : HeaderState) (events : list ScrollEvent)
         (before last : ScrollEvent),
    let h' := scrollAll (events ++ [before; last]) h in
    lastScrollY h' = scrollY last
    /\ (hidden h' = true
        <-> scrollY before < scrollY last
            /\ offsetHeight last < scrollY last)
    /\ (scrollY last <= scrollY before -> hidden h' = false)
    /\ (scrollY last <= offsetHeight last -> hidden h' = false).
Proof.
  intros h events before last h'.
  assert (Hh' : h' = updateHeader last
                       (updateHeader before (scrollAll events h))).
  { subst h'.
    replace (events ++ [before; last])
      with ((events ++ [before]) ++ [last])
      by (rewrite <- app_assoc; reflexivity).
    rewrite !scrollAll_snoc. reflexivity. }
  assert (Hiff : hidden h' = true
                 <-> scrollY before < scrollY last
                     /\ offsetHeight last < scrollY last).
  { rewrite Hh'. rewrite updateHeader_hidden. reflexivity. }
  split; [rewrite Hh'; reflexivity|].
  split; [exact Hiff|].
  split; intros Hle; apply Bool.not_true_is_false; intros Hhid;
    apply Hiff in Hhid; lra.
Qed.

End PageSpec.

(* ================================================================== *)
(** ** The content server: start-up, pages and static files *)
(* ================================================================== *)

Module ServerPages.
Import Server ServerSamples ServerSpec Routing.
Open Scope string_scope.

Lemma append_nil_r (s : string) : s ++ "" = s.
Proof. induction s as [|c s IH]; simpl; [reflexivity | rewrite IH; reflexivity]. Qed.

Lemma append_assoc (a b c : string) : (a ++ b) ++ c = a ++ (b ++ c).
Proof. induction a as [|x a IH]; simpl; [reflexivity | rewrite IH; reflexivity]. Qed.

Lemma body_Write (d : string) (w : ResponseWriter) :
  body (Write d w) = body w ++ d.
Proof. unfold Write, WriteHeader. destruct (wroteHeader w); reflexivity. Qed.

Lemma body_writeAll (chunks : list string) :
  forall w, body (writeAll chunks w) = body w ++ String.concat "" chunks.
Proof.
  induction chunks as [|c chunks IH]; intros w.
  - simpl. symmetry. apply append_nil_r.
  - change (writeAll (c :: chunks) w) with (writeAll chunks (Write c w)).
    rewrite IH, body_Write, append_assoc.
    destruct chunks as [|c' chunks]; [|reflexivity].
    simpl. rewrite append_nil_r. reflexivity.
Qed.

Lemma body_http_Error (w : ResponseWriter) (e : string) (code : nat) :
  body (http_Error w e code) = body w ++ e ++ newline.
Proof.
  unfold http_Error. rewrite body_Write.
  unfold WriteHeader, withHeader; simpl.
  destruct (wroteHeader w); reflexivity.
Qed.

Lemma finishRequest_body (w : ResponseWriter) :
  body (finishRequest w) = body w.
Proof. unfold finishRequest, WriteHeader. destruct (wroteHeader w); reflexivity. Qed.

Lemma finishRequest_wrote (w : ResponseWriter) :
  wroteHeader (finishRequest w) = true.
Proof.
  unfold finishRequest, WriteHeader.
  destruct (wroteHeader w) eqn:H; [exact H | reflexivity].
Qed.

Lemma writeAll_status_fresh (chunks : list string) :
  status (finishRequest (writeAll chunks newResponse)) = StatusOK.
Proof.
  rewrite finishRequest_status.
  destruct chunks as [|c chunks]; [reflexivity|].
  destruct (writeAll_fresh c chunks newResponse eq_refl) as [Hw Hs].
  rewrite Hw. exact Hs.
Qed.

(** *** Start-up *)

Lemma main_succeeds (os : OS) (dir f : string) (l : list Item)
    (t : Template) (u : unit) :
  os_Getwd os = Ok dir ->
  os_Open os (catalogPath dir) = Ok f ->
  json_Decode os f = Ok l ->
  template_ParseFiles os templateFiles = Ok t ->
  net_Listen os "tcp4" ":8080" = Ok u ->
  main os zeroGlobals
  = Done tt {| items := l; tmpl := Some t; DefaultServeMux := routes |}.
Proof.
  intros Hd Ho Hj Hp Hl.
  unfold main, bind, loadItems. rewrite Hd.
  fold (catalogPath dir). rewrite Ho, Hj.
  unfold setGlobals. fold templateFiles. rewrite Hp.
  unfold http_Handle, setGlobals; simpl. rewrite Hl. reflexivity.
Qed.

(** X12.  Start-up has two outcomes and no third.  Either the working
    directory, the catalog file at [<cwd>/static/data/items.json], its
    decoding, the three templates and the socket on [:8080] all
    succeed, and the process serves with exactly the decoded catalog,
    the parsed templates and the seven routes; or one of the five
    fails and the process exits with code 1.  It never panics and
    never serves with a partial set-up. *)
Theorem startup_serves_fully_or_exits_with_1 :
  forall (os : OS),
    (exists dir f l t u,
        os_Getwd os = Ok dir
        /\ os_Open os (filepath_Join [dir; "static"; "data"; "items.json"])
           = Ok f
        /\ json_Decode os f = Ok l
        /\ template_ParseFiles os
             ["templates/header.html"; "templates/footer.html";
              "templates/home.html"] = Ok t
        /\ net_Listen os "tcp4" ":8080" = Ok u
        /\ main os zeroGlobals
           = Done tt {| items := l; tmpl := Some t;
                        DefaultServeMux := routes |})
    \/ (exists msg,
          main os zeroGlobals = Exited 1 msg
          /\ ((exists e, os_Getwd os = Err e)
              \/ (exists dir e,
                    os_Getwd os = Ok dir
                    /\ os_Open os (filepath_Join
                                     [dir; "static"; "data"; "items.json"])
                       = Err e)
              \/ (exists dir f e,
                    os_Getwd os = Ok dir
                    /\ os_Open os (filepath_Join
                                     [dir; "static"; "data"; "items.json"])
                       = Ok f
                    /\ json_Decode os f = Err e)
              \/ (exists e,
                    template_ParseFiles os
                      ["templates/header.html"; "templates/footer.html";
                       "templates/home.html"] = Err e)
              \/ (exists e, net_Listen os "tcp4" ":8080" = Err e))).
Proof.
  intros os.
  destruct (os_Getwd os) as [dir|e] eqn:Hd.
  2:{ right. eexists. split.
      - unfold main, bind, loadItems. rewrite Hd. reflexivity.
      - left. exists e. reflexivity. }
  destruct (os_Open os (catalogPath dir)) as [f|e] eqn:Ho.
  2:{ right. eexists. split.
      - unfold main, bind, loadItems. rewrite Hd.
        fold (catalogPath dir). rewrite Ho. reflexivity.
      - right. left. exists dir, e. split; [reflexivity | exact Ho]. }
  destruct (json_Decode os f) as [l|e] eqn:Hj.
  2:{ right. eexists. split.
      - unfold main, bind, loadItems. rewrite Hd.
        fold (catalogPath dir). rewrite Ho, Hj. reflexivity.
      - right. right. left. exists dir, f, e.
        split; [reflexivity | split; [exact Ho | exact Hj]]. }
  destruct (template_ParseFiles os templateFiles) as [t|e] eqn:Hp.
  2:{ right. eexists. split.
      - unfold main, bind, loadItems. rewrite Hd.
        fold (catalogPath dir). rewrite Ho, Hj.
        unfold setGlobals. fold templateFiles. rewrite Hp. reflexivity.
      - right. right. right. left. exists e. exact Hp. }
  destruct (net_Listen os "tcp4" ":8080") as [u|e] eqn:Hl.
  2:{ right. eexists. split.
      - unfold main, bind, loadItems. rewrite Hd.
        fold (catalogPath dir). rewrite Ho, Hj.
        unfold setGlobals. fold templateFiles. rewrite Hp.
        unfold http_Handle, setGlobals; simpl. rewrite Hl. reflexivity.
      - right. right. right. right. exists e. reflexivity. }
  left. exists dir, f, l, t, u.
  repeat (split; [first [reflexivity | assumption]|]).
  apply (main_succeeds os dir f l t u); assumption.
Qed.

(** X13.  End to end: after a successful start-up, a request to the root path
    executes [home.html] on the title and on exactly the catalog the
    file decoded to, and a successful execution is answered with status
    200 and, as the body, what the template wrote, in order. *)
Theorem loaded_catalog_reaches_the_home_page :
  forall (os : OS) (dir f : string) (l : list Item) (t : Template)
         (u : unit) (chunks : list string),
    os_Getwd os = Ok dir ->
    os_Open os (filepath_Join [dir; "static"; "data"; "items.json"])
    = Ok f ->
    json_Decode os f = Ok l ->
    template_ParseFiles os templateFiles = Ok t ->
    net_Listen os "tcp4" ":8080" = Ok u ->
    t "home.html" (Some [("Title", VString "BlendingWaves");
                         ("Items", VItems l)]) = (chunks, None) ->
    responseStatus (startAndServe os (GET "/")) = Some 200
    /\ responseBody (startAndServe os (GET "/"))
       = Some (String.concat "" chunks)
    /\ catalogAfter (startAndServe os (GET "/")) = Some l.
Proof.
  intros os dir f l t u chunks Hd Ho Hj Hp Hl Hexec.
  set (g := {| items := l; tmpl := Some t; DefaultServeMux := routes |}).
  assert (Hrun : startAndServe os (GET "/")
                 = Done (finishRequest (writeAll chunks newResponse)) g).
  { unfold startAndServe, bind.
    rewrite (main_succeeds os dir f l t u Hd Ho Hj Hp Hl). fold g.
    unfold serveHTTP, bind, getGlobals.
    change (mux_Handler (net_http os) (DefaultServeMux g) (GET "/"))
      with (Dispatch HomeHandler "/").
    cbv iota beta.
    change (runHandler os HomeHandler newResponse (GET "/") g)
      with (homeHandler newResponse (GET "/") g).
    rewrite (homeHandler_runs newResponse (GET "/") g t eq_refl).
    change (homeData g)
      with (Some [("Title", VString "BlendingWaves"); ("Items", VItems l)]).
    rewrite Hexec. reflexivity. }
  rewrite Hrun. simpl responseStatus. simpl responseBody.
  simpl catalogAfter.
  rewrite writeAll_status_fresh, finishRequest_body, body_writeAll.
  repeat split.
Qed.

(** The theorem on the sample process: the one-item catalog of the
    spec's end-to-end test appears in the page. *)
Lemma loaded_catalog_witness :
  responseBody (startAndServe (sampleOS goodTemplate) (GET "/"))
  = Some "<html>Test</html>".
Proof.
  exact (proj1 (proj2
    (loaded_catalog_reaches_the_home_page (sampleOS goodTemplate)
       "/srv" "[...]" [sampleItem] goodTemplate tt
       ["<html>"; "Test"; "</html>"]
       eq_refl eq_refl eq_refl eq_refl eq_refl eq_refl))).
Defined.

(** *** Handlers *)

Lemma tmpl_ExecuteTemplate_runs (w : ResponseWriter) (name : string)
    (data : Data) (g : Globals) (t : Template) :
  tmpl g = Some t ->
  tmpl_ExecuteTemplate w name data g
  = Done (writeAll (fst (t name data)) w, snd (t name data)) g.
Proof.
  intros Ht. unfold tmpl_ExecuteTemplate, bind, getGlobals, ret,
    Template_ExecuteTemplate.
  rewrite Ht. destruct (t name data); reflexivity.
Qed.

(** The three informational handlers, step by step. *)
Lemma infoHandler_runs (content : string) (w : ResponseWriter) (r : Request)
    (g : Globals) (t : Template) :
  tmpl g = Some t ->
  infoHandler content w r g
  = Done
      (let w1 := writeAll (fst (t "header.html" None)) w in
       match snd (t "header.html" None) with
       | Some e => http_Error w1 e StatusInternalServerError
       | None =>
           let w2 := writeAll (fst (t "footer.html" None))
                       (Write content w1) in
           match snd (t "footer.html" None) with
           | Some e => http_Error w2 e StatusInternalServerError
           | None => w2
           end
       end) g.
Proof.
  intros Ht. unfold infoHandler, bind.
  rewrite (tmpl_ExecuteTemplate_runs w "header.html" None g t Ht).
  destruct (snd (t "header.html" None)) as [e|]; [reflexivity|].
  rewrite (tmpl_ExecuteTemplate_runs _ "footer.html" None g t Ht).
  destruct (snd (t "footer.html" None)) as [e|]; reflexivity.
Qed.

(** X14.  Once the templates are parsed, no request ends the process or
    changes the catalog, the templates or the routes, whatever the
    routes are and whatever the request is: every request gets a
    completed response and leaves the globals as they were. *)
Theorem serving_never_exits_or_changes_the_globals :
  forall (os : OS) (g : Globals) (t : Template) (r : Request),
    tmpl g = Some t ->
    exists w, serveHTTP os r g = Done w g /\ wroteHeader w = true.
Proof.
  intros os g t r Ht.
  assert (Hrun : forall h, exists w,
             runHandler os h newResponse r g = Done w g).
  { intros h. destruct h; unfold runHandler.
    - rewrite (homeHandler_runs newResponse r g t Ht). eexists; reflexivity.
    - destruct (stripPrefix "/static/" (URL_Path r));
        [|eexists; reflexivity].
      destruct (String.eqb (URL_RawPath r) ""); [eexists; reflexivity|].
      destruct (stripPrefix "/static/" (URL_RawPath r));
        eexists; reflexivity.
    - eexists; reflexivity.
    - eexists; reflexivity.
    - rewrite (infoHandler_runs _ newResponse r g t Ht). eexists; reflexivity.
    - rewrite (infoHandler_runs _ newResponse r g t Ht). eexists; reflexivity.
    - rewrite (infoHandler_runs _ newResponse r g t Ht). eexists; reflexivity. }
  unfold serveHTTP, bind, getGlobals.
  destruct (mux_Handler (net_http os) (DefaultServeMux g) r)
    as [h pat | url code |].
  - destruct (Hrun h) as [w Hw]. rewrite Hw.
    eexists. split; [reflexivity | apply finishRequest_wrote].
  - eexists. split; [reflexivity | apply finishRequest_wrote].
  - eexists. split; [reflexivity | apply finishRequest_wrote].
Qed.

(** The theorem on the sample process, for a request that fails in the
    template. *)
Lemma serving_never_exits_witness :
  exists w,
    serveHTTP (sampleOS failsMidway) (GET "/") (servingGlobals failsMidway)
    = Done w (servingGlobals failsMidway)
    /\ wroteHeader w = true.
Proof.
  apply (serving_never_exits_or_changes_the_globals
           (sampleOS failsMidway) (servingGlobals failsMidway) failsMidway
           (GET "/")).
  reflexivity.
Defined.

(** X15.  An informational page is the header template's output, then the
    fixed content, then the footer template's output, with status 200,
    when both templates execute. *)
Theorem info_page_is_header_content_footer :
  forall (content : string) (r : Request) (g : Globals) (t : Template)
         (hs fs : list string),
    tmpl g = Some t ->
    t "header.html" None = (hs, None) ->
    t "footer.html" None = (fs, None) ->
    exists w,
      infoHandler content newResponse r g = Done w g
      /\ status (finishRequest w) = StatusOK
      /\ body (finishRequest w)
         = String.concat "" hs ++ content ++ String.concat "" fs.
Proof.
  intros content r g t hs fs Ht Hh Hf.
  rewrite (infoHandler_runs content newResponse r g t Ht), Hh, Hf.
  cbn [fst snd]. eexists. split; [reflexivity|].
  assert (Hw : wroteHeader (Write content (writeAll hs newResponse)) = true).
  { unfold Write, WriteHeader.
    destruct (wroteHeader (writeAll hs newResponse)) eqn:E;
      [exact E | reflexivity]. }
  assert (Hs : status (Write content (writeAll hs newResponse)) = StatusOK).
  { destruct hs as [|c hs].
    - reflexivity.
    - destruct (writeAll_fresh c hs newResponse eq_refl) as [Hw1 Hs1].
      destruct (Write_started content _ Hw1) as [_ Hs2].
      rewrite Hs2. exact Hs1. }
  destruct (writeAll_started fs _ Hw) as [Hw' Hs'].
  split.
  - rewrite finishRequest_status, Hw', Hs'. exact Hs.
  - rewrite finishRequest_body, body_writeAll, body_Write, body_writeAll.
    simpl body. rewrite append_assoc. reflexivity.
Qed.

(** The theorem for the privacy page on the sample templates. *)
Lemma info_page_witness :
  exists w,
    infoHandler "<h1>Privacy Policy</h1>" newResponse (GET "/privacy")
      (servingGlobals goodTemplate)
    = Done w (servingGlobals goodTemplate)
    /\ status (finishRequest w) = StatusOK
    /\ body (finishRequest w)
       = String.concat "" ["header.html"] ++ "<h1>Privacy Policy</h1>"
         ++ String.concat "" ["footer.html"].
Proof.
  apply (info_page_is_header_content_footer "<h1>Privacy Policy</h1>"
           (GET "/privacy") (servingGlobals goodTemplate) goodTemplate
           ["header.html"] ["footer.html"]); reflexivity.
Defined.

(** X16.  A failure in the footer template of an informational page can never
    be answered with the 500 the handler asks for: the content has been
    written by then, so the status is 200 and the error text follows
    the page.  A failure in the header template skips the content and
    the footer; it is answered with 500 only when the header had
    written nothing. *)
Theorem info_page_failures :
  forall (content : string) (r : Request) (g : Globals) (t : Template),
    tmpl g = Some t ->
    (forall hs fs e,
        t "header.html" None = (hs, None) ->
        t "footer.html" None = (fs, Some e) ->
        exists w,
          infoHandler content newResponse r g = Done w g
          /\ status (finishRequest w) = StatusOK
          /\ body (finishRequest w)
             = String.concat "" hs ++ content ++ String.concat "" fs
               ++ e ++ newline)
    /\ (forall hs e,
          t "header.html" None = (hs, Some e) ->
          exists w,
            infoHandler content newResponse r g = Done w g
            /\ status (finishRequest w)
               = match hs with
                 | [] => StatusInternalServerError
                 | _ :: _ => StatusOK
                 end
            /\ body (finishRequest w)
               = String.concat "" hs ++ e ++ newline).
Proof.
  intros content r g t Ht. split.
  - intros hs fs e Hh Hf.
    rewrite (infoHandler_runs content newResponse r g t Ht), Hh, Hf.
    cbn [fst snd]. eexists. split; [reflexivity|].
    set (w1 := Write content (writeAll hs newResponse)).
    assert (Hw : wroteHeader w1 = true).
    { unfold w1, Write, WriteHeader.
      destruct (wroteHeader (writeAll hs newResponse)) eqn:E;
        [exact E | reflexivity]. }
    assert (Hs : status w1 = StatusOK).
    { unfold w1. destruct hs as [|c hs].
      - reflexivity.
      - destruct (writeAll_fresh c hs newResponse eq_refl) as [Hw1 Hs1].
        destruct (Write_started content _ Hw1) as [_ Hs2].
        rewrite Hs2. exact Hs1. }
    destruct (writeAll_started fs w1 Hw) as [Hw' Hs'].
    destruct (http_Error_status (writeAll fs w1) e
                StatusInternalServerError) as [Hwe Hse].
    split.
    + rewrite finishRequest_status, Hwe, Hse, Hw', Hs'. exact Hs.
    + rewrite finishRequest_body, body_http_Error, body_writeAll.
      unfold w1. rewrite body_Write, body_writeAll. simpl body.
      rewrite !append_assoc. reflexivity.
  - intros hs e Hh.
    rewrite (infoHandler_runs content newResponse r g t Ht), Hh.
    cbn [fst snd]. eexists. split; [reflexivity|].
    destruct (http_Error_status (writeAll hs newResponse) e
                StatusInternalServerError) as [Hwe Hse].
    split.
    + rewrite finishRequest_status, Hwe, Hse.
      destruct hs as [|c hs]; [reflexivity|].
      destruct (writeAll_fresh c hs newResponse eq_refl) as [Hw1 Hs1].
      rewrite Hw1. exact Hs1.
    + rewrite finishRequest_body, body_http_Error, body_writeAll.
      reflexivity.
Qed.

(** The theorem on a template set whose footer fails: status 200. *)
Lemma info_page_failures_witness :
  exists w,
    infoHandler "<h1>Terms of Use</h1>" newResponse (GET "/tou")
      (servingGlobals failsInFooter)
    = Done w (servingGlobals failsInFooter)
    /\ status (finishRequest w) = StatusOK
    /\ body (finishRequest w)
       = String.concat "" ["header.html"] ++ "<h1>Terms of Use</h1>"
         ++ String.concat "" []
         ++ "template: no template footer.html" ++ newline.
Proof.
  apply (proj1 (info_page_failures "<h1>Terms of Use</h1>" (GET "/tou")
                  (servingGlobals failsInFooter) failsInFooter eq_refl)
           ["header.html"] [] "template: no template footer.html");
    reflexivity.
Defined.

(** *** Static files *)

Lemma prefix_append (p rest : string) : String.prefix p (p ++ rest) = true.
Proof.
  induction p as [|c p IH]; simpl.
  - destruct rest; reflexivity.
  - destruct (ascii_dec c c); [exact IH | congruence].
Qed.

Lemma stripPrefix_append (p rest : string) :
  stripPrefix p (p ++ rest) = Some rest.
Proof.
  induction p as [|c p IH]; simpl; [reflexivity|].
  rewrite Ascii.eqb_refl. exact IH.
Qed.

(** X17.  Every plain request (a path that needs no escape and came
    with none) other than [CONNECT] for a canonical path below
    [/static/] goes to the file server over [./static], which is given
    the path with the [/static/] prefix removed; the catalog and the
    templates play no part in the answer. *)
Theorem static_subtree_goes_to_the_file_server :
  forall (os : OS) (g : Globals) (r : Request) (rest : string),
    DefaultServeMux g = routes ->
    Method r <> "CONNECT" ->
    plainRequest r = true ->
    URL_Path r = "/static/" ++ rest ->
    cleanPath (URL_Path r) = URL_Path r ->
    mux_Handler (net_http os) routes r = Dispatch StaticFiles "/static/"
    /\ serveHTTP os r g
       = Done (finishRequest
                 (http_FileServer os "./static" rest r newResponse)) g.
Proof.
  intros os g r rest Hmux Hmethod Hplain Hpath Hclean.
  assert (Hm : String.eqb (Method r) "CONNECT" = false)
    by (apply String.eqb_neq; exact Hmethod).
  assert (Hns : URL_Path r <> "/static")
    by (rewrite Hpath; simpl; discriminate).
  assert (Hraw : String.eqb (URL_RawPath r) "" = true).
  { unfold plainRequest in Hplain.
    apply andb_true_iff in Hplain. apply Hplain. }
  assert (Hd : mux_Handler (net_http os) routes r
               = Dispatch StaticFiles "/static/").
  { unfold mux_Handler.
    rewrite Hplain, Hm, Hclean, (shouldRedirect_routes _ Hns),
      String.eqb_refl.
    cbn [negb]. unfold mux_handler, mux_match.
    rewrite routes_m, routes_es, !lookup_cons, !firstPrefix_cons.
    cbn [fst lookup]. rewrite Hpath.
    change (String.eqb "/non" ("/static/" ++ rest)) with false.
    change (String.eqb "/tou" ("/static/" ++ rest)) with false.
    change (String.eqb "/privacy" ("/static/" ++ rest)) with false.
    change (String.eqb "/main.js" ("/static/" ++ rest)) with false.
    change (String.eqb "/styles.css" ("/static/" ++ rest)) with false.
    destruct (String.eqb "/static/" ("/static/" ++ rest)); [reflexivity|].
    change (String.eqb "/" ("/static/" ++ rest)) with false.
    rewrite prefix_append. reflexivity. }
  split; [exact Hd|].
  unfold serveHTTP, bind, getGlobals. rewrite Hmux, Hd.
  cbv iota beta. unfold runHandler.
  rewrite Hraw, Hpath, stripPrefix_append. reflexivity.
Qed.

(** The theorem for the image the page loads as its top layer. *)
Lemma static_subtree_witness :
  mux_Handler (net_http (sampleOS goodTemplate)) routes
    (GET "/static/images/pond_top.jpg")
  = Dispatch StaticFiles "/static/".
Proof.
  assert (Hmethod : Method (GET "/static/images/pond_top.jpg") <> "CONNECT")
    by (simpl; discriminate).
  exact (proj1 (static_subtree_goes_to_the_file_server
                  (sampleOS goodTemplate) (servingGlobals goodTemplate)
                  (GET "/static/images/pond_top.jpg") "images/pond_top.jpg"
                  eq_refl Hmethod eq_refl eq_refl eq_refl)).
Defined.

End ServerPages.

(* ================================================================== *)
(** ** Resizing, and what the field forgets *)
(* ================================================================== *)

Module FieldMemory.
Import GLSL Shaders FrameLoop FrameRuns FrameLoopSpec.
Open Scope R_scope.

Lemma updatePass_difference (q : PointerUniforms) (f f' : sampler2D)
    (p : vec2) :
  cr (updatePass q f p) - cr (updatePass q f' p)
  = 0.95 * (cr (f p) - cr (f' p))
  /\ cg (updatePass q f p) - cg (updatePass q f' p)
     = 0.95 * (cg (f p) - cg (f' p))
  /\ cb (updatePass q f p) - cb (updatePass q f' p)
     = 0.95 * (cb (f p) - cb (f' p))
  /\ ca (updatePass q f p) - ca (updatePass q f' p)
     = 0.95 * (ca (f p) - ca (f' p)).
Proof.
  unfold updatePass, displacementUpdate, brush, strength, dist,
    correctedUv, correctedMouse, aspectRatio, rg_add, vscale4, vscale,
    texture2D, damping; simpl.
  repeat split; ring.
Qed.

(** X18.  The simulation forgets where it started.  Two runs of update passes
    that see the same pointer input frame by frame but start from
    different fields differ, after [n] frames, by the difference of
    the two starting fields times 0.95 to the power [n], at every
    point and in every component: what the brush adds does not depend
    on the field. *)
Theorem field_forgets_its_start :
  forall (ps : nat -> PointerUniforms) (f f' : sampler2D) (n : nat)
         (p : vec2),
    cr (fieldAt ps f n p) - cr (fieldAt ps f' n p)
    = 0.95 ^ n * (cr (f p) - cr (f' p))
    /\ cg (fieldAt ps f n p) - cg (fieldAt ps f' n p)
       = 0.95 ^ n * (cg (f p) - cg (f' p))
    /\ cb (fieldAt ps f n p) - cb (fieldAt ps f' n p)
       = 0.95 ^ n * (cb (f p) - cb (f' p))
    /\ ca (fieldAt ps f n p) - ca (fieldAt ps f' n p)
       = 0.95 ^ n * (ca (f p) - ca (f' p)).
Proof.
  intros ps f f' n p. induction n as [|n (IHr & IHg & IHb & IHa)].
  - simpl. repeat split; ring.
  - simpl fieldAt.
    destruct (updatePass_difference (ps n) (fieldAt ps f n)
                (fieldAt ps f' n) p) as (Hr & Hg & Hb & Ha).
    rewrite Hr, Hg, Hb, Ha, IHr, IHg, IHb, IHa.
    simpl pow. repeat split; ring.
Qed.

Section Resize.

Variables topTexture bottomTexture : sampler2D.

Local Abbreviation handle := (handle topTexture bottomTexture).
Local Abbreviation animate := (animate topTexture bottomTexture).
Local Abbreviation reachable := (reachable topTexture bottomTexture).

(** X19.  A resize keeps the roles of the two buffers, the texture uniforms
    and the pointer vectors, and the frame after it runs the update
    pass on what the reallocated previous target holds, with the new
    width and height as the resolution of the aspect correction. *)
Theorem resize_takes_effect_in_the_next_frame :
  forall (s : State) (newWidth newHeight : R) (reallocated : Gpu),
    reachable s ->
    let s1 := exec (handle (Resize newWidth newHeight reallocated)) s in
    buffers s1 = buffers s
    /\ pointer s1 = pointer s
    /\ texture (gpu (exec animate s1)) (currentRenderTarget (buffers s))
       = displacementUpdate
           {| uLastFrame :=
                texture reallocated (previousRenderTarget (buffers s));
              uMousePos := mouse (pointer s);
              uMouseVelocity :=
                vsub (mouse (pointer s)) (lastMouse (pointer s));
              uResolution := Vec2 newWidth newHeight |}.
Proof.
  intros s w h fresh Hreach s1.
  pose proof (reachable_consistent topTexture bottomTexture s Hreach) as Hc.
  assert (Hb : buffers s1 = buffers s) by reflexivity.
  assert (Hp : pointer s1 = pointer s) by reflexivity.
  split; [exact Hb|]. split; [exact Hp|].
  assert (Hc1 : consistent (buffers s1)) by (rewrite Hb; exact Hc).
  pose proof (animate_frame topTexture bottomTexture s1 Hc1) as H.
  cbv zeta in H. destruct H as (_ & _ & Hcur & _).
  rewrite Hb, Hp in Hcur. exact Hcur.
Qed.

End Resize.

(** The theorem for a resize to 1024 by 768 right after [init]. *)
Lemma resize_witness :
  buffers (exec (handle redImage blueImage (Resize 1024 768 blankGpu))
             (initial 800 600 blankGpu))
  = buffers (initial 800 600 blankGpu).
Proof.
  exact (proj1 (resize_takes_effect_in_the_next_frame redImage blueImage
                  (initial 800 600 blankGpu) 1024 768 blankGpu
                  (reach_init redImage blueImage 800 600 blankGpu))).
Defined.

End FieldMemory.
